(** * playlistBuilder: a shallow embedding of [playlistBuilder.py]

    The development follows the Python module class by class:
    [TrackInfo], [AudioModel], [AudioFeatures], [Track] and
    [PlaylistBuilder].  The three collaborators the program talks to are
    kept abstract:

    - the remote catalog ([api.t]) is an oracle from requests to decoded
      JSON responses;
    - NumPy ([numpy.t]) contributes the square root used by
      [np.linalg.norm] and the index sort [ndarray.argsort]; only what the
      NumPy documentation promises about them is assumed
      ([numpy.contract]);
    - Python objects that the program mutates ([Track.audio_features] in
      [getAudioFeatures]) live in a store addressed by references, so that
      a list holding the same object twice is expressible.

    Numbers: JSON numbers and float64 values are modelled as exact
    rationals ([Q]); rounding is not modelled.  Strings are byte strings
    (the UTF-8 encoding of the Python [str]). *)

From Stdlib Require Import QArith ZArith Lia Lqa Ascii String Sorted.
From stdpp Require Import base option list strings pretty.

Local Open Scope string_scope.
Local Open Scope list_scope.
Local Open Scope Z_scope.

(** ** Python exceptions and the error monad *)

Inductive exn : Type :=
| AttributeError   (* attribute access on None *)
| TypeError        (* arithmetic or join on None, too many arguments *)
| ValueError       (* NumPy shape mismatch *)
| IndexError       (* sequence index out of range *)
| DanglingRef.     (* a reference outside the store: not a Python
                      exception, it cannot arise from Python code *)

Inductive result (A : Type) : Type :=
| Ok (a : A)
| Raise (e : exn).
Arguments Ok {A} a.
Arguments Raise {A} e.

#[global] Instance result_ret : MRet result := fun _ a => Ok a.
#[global] Instance result_bind : MBind result := fun _ _ f m =>
  match m with Ok a => f a | Raise e => Raise e end.

Fixpoint mapM_r {A B} (f : A -> result B) (l : list A) : result (list B) :=
  match l with
  | [] => Ok []
  | x :: l' => y ← f x; ys ← mapM_r f l'; Ok (y :: ys)
  end.

(** ** Python built-ins used by the program *)

Module py.

(** [sep.join(l)] *)
Fixpoint join (sep : string) (l : list string) : string :=
  match l with
  | [] => ""
  | [s] => s
  | s :: l' => s +:+ sep +:+ join sep l'
  end.

(** [s[:n]] for [n >= 0] *)
Fixpoint str_take (n : nat) (s : string) : string :=
  match n, s with
  | S n', String c s' => String c (str_take n' s')
  | _, _ => ""
  end.

Fixpoint str_drop (n : nat) (s : string) : string :=
  match n, s with
  | S n', String _ s' => str_drop n' s'
  | _, _ => s
  end.

(** [s[-n:]] for [n > 0] *)
Definition str_last (n : nat) (s : string) : string :=
  str_drop (String.length s - n) s.

(** [l[:stop]] for a Python int [stop]: a negative [stop] counts from
    the end of the sequence. *)
Definition slice_to {A} (l : list A) (stop : Z) : list A :=
  if stop <? 0
  then take (Z.to_nat (Z.max 0 (Z.of_nat (length l) + stop))) l
  else take (Z.to_nat stop) l.

(** Values a JSON document may put in the [year] field. *)
Inductive value : Type :=
| Int (z : Z)
| Str (s : string).

(** [str(v)] *)
Definition str (v : value) : string :=
  match v with
  | Int z => pretty z
  | Str s => s
  end.

(** Truth value of an optional string: [None] and [""] are false. *)
Definition truthy_str (o : option string) : bool :=
  match o with
  | Some s => negb (String.eqb s "")
  | None => false
  end.

(** Truth value of an optional value: [None], [0] and [""] are false. *)
Definition truthy (o : option value) : bool :=
  match o with
  | Some (Int z) => negb (z =? 0)
  | Some (Str s) => negb (String.eqb s "")
  | None => false
  end.

(** *** [urllib.parse.quote] with its default [safe='/'] *)

Definition is_unreserved (c : ascii) : bool :=
  let n := nat_of_ascii c in
  ((65 <=? n) && (n <=? 90))%nat        (* A-Z *)
  || ((97 <=? n) && (n <=? 122))%nat    (* a-z *)
  || ((48 <=? n) && (n <=? 57))%nat     (* 0-9 *)
  || (n =? 95)%nat || (n =? 46)%nat     (* _ . *)
  || (n =? 45)%nat || (n =? 126)%nat.   (* - ~ *)

Definition hex_digit (n : nat) : ascii :=
  if (n <? 10)%nat then ascii_of_nat (48 + n) else ascii_of_nat (55 + n).

Definition quote_byte (c : ascii) : string :=
  if is_unreserved c || (nat_of_ascii c =? 47)%nat   (* '/' is safe *)
  then String c ""
  else let n := nat_of_ascii c in
       String "%" (String (hex_digit (n / 16)) (String (hex_digit (n mod 16)) "")).

Fixpoint quote (s : string) : string :=
  match s with
  | EmptyString => ""
  | String c s' => quote_byte c +:+ quote s'
  end.

End py.

(** ** class TrackInfo *)

Module TrackInfo.

Record t : Type := mk {
  name : option string;
  artist : option string;
  album : option string;
  year : option py.value;
  id : option string;
  href : option string
}.

(** [__init__]: a non-empty [releaseDate] overrides [year] with its last
    four characters. *)
Definition init (name artist album : option string) (year : option py.value)
    (id href releaseDate : option string) : t :=
  let year' :=
    match releaseDate with
    | Some d => if py.truthy_str releaseDate then Some (py.Str (py.str_last 4 d)) else year
    | None => year
    end in
  mk name artist album year' id href.

Definition genQuery (self : t) : string :=
  let qName := if py.truthy_str (name self)
               then (fun s => "track:" +:+ s) <$> name self else None in
  let qArtist := if py.truthy_str (artist self)
                 then (fun s => "artist:" +:+ s) <$> artist self else None in
  let qAlbum := if py.truthy_str (album self)
                then (fun s => "album:" +:+ s) <$> album self else None in
  let qYear := if py.truthy (year self)
               then (fun y => "year:" +:+ py.str y) <$> year self else None in
  let q := [qName; qArtist; qAlbum; qYear] in
  let q := py.join " " (omap (fun x => x) (filter (fun x => py.truthy_str x) q)) in
  py.quote q.

End TrackInfo.

(** ** class AudioModel *)

Module AudioModel.

(** Every constructor argument defaults to [None]. *)
Record t : Type := mk {
  acousticness : option Q;
  danceability : option Q;
  energy : option Q;
  instrumentalness : option Q;
  liveness : option Q;
  speechiness : option Q;
  valence : option Q;
  loudness : option Q
}.

(** [AudioModel( *args )]: positional arguments fill the parameters in
    declaration order, the rest keep their default; more than eight is a
    TypeError. *)
Definition init_star (args : list Q) : result t :=
  if (length args <=? 8)%nat
  then Ok (mk (args !! 0%nat) (args !! 1%nat) (args !! 2%nat) (args !! 3%nat)
              (args !! 4%nat) (args !! 5%nat) (args !! 6%nat) (args !! 7%nat))
  else Raise TypeError.

Definition getNumpyVector (self : t) : list (option Q) :=
  [acousticness self; danceability self; energy self; instrumentalness self;
   liveness self; speechiness self; valence self; loudness self].

End AudioModel.

(** ** class AudioFeatures *)

Module AudioFeatures.

(** The keyword arguments of [__init__], that is, one decoded record of
    the audio-features response; a missing key is [None].  A null record
    or a record with a key that [__init__] does not know is outside this
    type. *)
Record kwargs : Type := mk_kwargs {
  kw_acousticness : option Q;
  kw_danceability : option Q;
  kw_duration_ms : option Z;
  kw_energy : option Q;
  kw_instrumentalness : option Q;
  kw_key : option Z;
  kw_liveness : option Q;
  kw_loudness : option Q;
  kw_mode : option Z;
  kw_speechiness : option Q;
  kw_tempo : option Q;
  kw_time_signature : option Z;
  kw_valence : option Q;
  kw_url : option string;
  kw_type : option string;
  kw_id : option string;
  kw_uri : option string;
  kw_track_href : option string;
  kw_analysis_url : option string
}.

Record t : Type := mk {
  duration_ms : option Z;
  key : option Z;
  mode : option Z;
  tempo : option Q;
  time_signature : option Z;
  url : option string;
  type : option string;
  id : option string;
  uri : option string;
  track_href : option string;
  analysis_url : option string;
  model : AudioModel.t
}.

(** [AudioFeatures( **feature )] *)
Definition init (kw : kwargs) : t :=
  mk (kw_duration_ms kw) (kw_key kw) (kw_mode kw) (kw_tempo kw)
     (kw_time_signature kw) (kw_url kw) (kw_type kw) (kw_id kw) (kw_uri kw)
     (kw_track_href kw) (kw_analysis_url kw)
     (AudioModel.mk (kw_acousticness kw) (kw_danceability kw) (kw_energy kw)
        (kw_instrumentalness kw) (kw_liveness kw) (kw_speechiness kw)
        (kw_valence kw) (kw_loudness kw)).

End AudioFeatures.

(** ** class Track *)

Module Track.

(** Every [Track] the program builds is given a [track_info]; only
    [audio_features] is ever left at its default [None]. *)
Record t : Type := mk {
  audio_features : option AudioFeatures.t;
  track_info : TrackInfo.t
}.

(** [track.audio_features = af] *)
Definition set_audio_features (af : AudioFeatures.t) (self : t) : t :=
  mk (Some af) (track_info self).

End Track.

(** ** NumPy *)

Module numpy.

(** The two NumPy routines whose result the program does not determine:
    the float square root inside [np.linalg.norm], and
    [ndarray.argsort()] with its default [kind]. *)
Record t : Type := mk {
  sqrt : Q -> Q;
  argsort : list Q -> list nat
}.

(** [idx] lists positions of [ks] in non-decreasing key order. *)
Definition keys_sorted (ks : list Q) (idx : list nat) : Prop :=
  forall (i j a b : nat) (ka kb : Q),
    (i <= j)%nat ->
    idx !! i = Some a -> idx !! j = Some b ->
    ks !! a = Some ka -> ks !! b = Some kb ->
    (ka <= kb)%Q.

(** What the documentation of [argsort] promises for every [kind]: the
    result holds each index exactly once and sorts the array.  The
    default kind, quicksort, is documented as not stable. *)
Definition contract (np : t) : Prop :=
  forall ks : list Q,
    Permutation (argsort np ks) (seq 0 (length ks))
    /\ keys_sorted ks (argsort np ks).


(** A two-dimensional array, row by row.  An entry is [None] when the
    array has dtype object and holds Python's [None] there. *)
Definition ndarray2 : Type := list (list (option Q)).

(** [np.matrix(rows)]: a one-dimensional input of shape [(n,)] becomes
    a matrix of shape [(1, n)], so the empty list gives shape [(1, 0)]. *)
Definition matrix (rows : list (list (option Q))) : ndarray2 :=
  match rows with
  | [] => [[]]
  | _ => rows
  end.

Definition ncols (m : ndarray2) : nat := length (hd [] m).

Definition column (j : nat) (m : ndarray2) : list (option Q) :=
  (fun row => default None (row !! j)) <$> m.

(** A number is needed: arithmetic on [None] raises TypeError. *)
Definition number (x : option Q) : result Q :=
  match x with
  | Some q => Ok q
  | None => Raise TypeError
  end.

(** [add.reduce] along a column *)
Fixpoint add_reduce (col : list (option Q)) : result Q :=
  match col with
  | [] => Ok 0%Q
  | x :: col' => v ← number x; s ← add_reduce col'; Ok (v + s)%Q
  end.

(** [m.mean(axis=0).tolist()[0]]: one mean per column, the sum of the
    column divided by the number of rows. *)
Definition mean_axis0 (m : ndarray2) : result (list Q) :=
  mapM_r (fun j => s ← add_reduce (column j m);
                   Ok (s / inject_Z (Z.of_nat (length m)))%Q)
         (seq 0 (ncols m)).

(** Broadcasting of the last axis of a row against a vector. *)
Definition broadcast (row v : list (option Q))
  : result (list (option Q) * list (option Q)) :=
  let c := length row in
  let k := length v in
  if (c =? k)%nat then Ok (row, v)
  else if (c =? 1)%nat then Ok (replicate k (default None (head row)), v)
  else if (k =? 1)%nat then Ok (row, replicate c (default None (head v)))
  else Raise ValueError.

Definition sub_elt (xy : option Q * option Q) : result Q :=
  x ← number xy.1; y ← number xy.2; Ok (x - y)%Q.

(** [m - v] *)
Definition sub (m : ndarray2) (v : list (option Q)) : result (list (list Q)) :=
  mapM_r (fun row => rv ← broadcast row v; mapM_r sub_elt (zip rv.1 rv.2)) m.

Definition sum_squares (row : list Q) : Q :=
  fold_right Qplus 0%Q ((fun x => x * x)%Q <$> row).

(** [np.linalg.norm(m, axis=1)] *)
Definition linalg_norm_axis1 (np : t) (m : list (list Q)) : list Q :=
  (fun row => sqrt np (sum_squares row)) <$> m.

End numpy.

(** ** The remote catalog *)

Module api.

Record artist_object : Type := { artist_name : string }.

Record album_object : Type := { album_name : string; release_date : string }.

Record track_object : Type := {
  track_name : string;
  track_artists : list artist_object;
  track_album : album_object;
  track_id : string;
  track_href : string
}.

(** Decoded responses of the three endpoints, as functions of the
    request parameters: [items] of a search for [q], the
    [audio_features] array for [ids], and the [tracks] of a
    recommendation request. *)
Record t : Type := mk {
  search : string -> list track_object;
  audio_features : string -> list AudioFeatures.kwargs;
  recommendations : string -> Z -> AudioModel.t -> list track_object
}.

End api.

(** ** class PlaylistBuilder *)

Module PlaylistBuilder.

(** [client_id], [client_secret] and [auth] only authenticate the
    requests; [session] stands for the cached HTTP session together with
    the service behind it. *)
Record t : Type := mk {
  tracks : list Track.t;
  session : api.t
}.

(** The store of [Track] objects, and references into it. *)
Abbreviation ref := nat (only parsing).
Abbreviation store := (list Track.t) (only parsing).

Definition deref (h : store) (r : ref) : result Track.t :=
  match h !! r with
  | Some tr => Ok tr
  | None => Raise DanglingRef
  end.

(** [x.attr] where [x] may be [None] *)
Definition attr {A} (x : option A) : result A :=
  match x with
  | Some a => Ok a
  | None => Raise AttributeError
  end.

(** [",".join(ids)]: every item has to be a string. *)
Definition join_ids (ids : list (option string)) : result string :=
  strs ← mapM_r (fun i => match i with
                          | Some s => Ok s
                          | None => Raise TypeError
                          end) ids;
  Ok (py.join "," strs).

Definition track_id (tr : Track.t) : option string :=
  TrackInfo.id (Track.track_info tr).

(** The [data = {...}; Track(track_info=TrackInfo( **data ))] block shared
    by [searchTrack] and [getModelRecommendations]. *)
Definition track_of (o : api.track_object) : result Track.t :=
  match api.track_artists o with
  | [] => Raise IndexError
  | a :: _ =>
      Ok (Track.mk None
            (TrackInfo.init
               (Some (api.track_name o))
               (Some (api.artist_name a))
               (Some (api.album_name (api.track_album o)))
               (Some (py.Str (py.str_take 4 (api.release_date (api.track_album o)))))
               (Some (api.track_id o))
               (Some (api.track_href o))
               None))
  end.

Definition searchTrack (self : t) (track : Track.t) : result (option Track.t) :=
  let q := TrackInfo.genQuery (Track.track_info track) in
  match api.search (session self) q with
  | [] => Ok None
  | item :: _ => tr ← track_of item; Ok (Some tr)
  end.

(** The [for track, feature in zip(tracks, features)] loop. *)
Definition assign_features (tracks : list ref)
    (features : list AudioFeatures.kwargs) (h : store) : store :=
  fold_left
    (fun h tf => alter (Track.set_audio_features (AudioFeatures.init tf.2)) tf.1 h)
    (zip tracks features) h.

Definition getAudioFeatures (self : t) (tracks : list ref) (h : store)
  : result (list ref * store) :=
  objs ← mapM_r (deref h) tracks;
  ids ← join_ids (track_id <$> objs);
  let features := api.audio_features (session self) ids in
  Ok (tracks, assign_features tracks features h).

Definition feature_rows (tracks : list Track.t) : result (list (list (option Q))) :=
  mapM_r (fun tr => af ← attr (Track.audio_features tr);
                    Ok (AudioModel.getNumpyVector (AudioFeatures.model af)))
         tracks.

Definition genAverageModel (tracks : list Track.t) : result AudioModel.t :=
  rows ← feature_rows tracks;
  let mat := numpy.matrix rows in
  means ← numpy.mean_axis0 mat;
  AudioModel.init_star means.

(** [dist.argsort()[:limit]] of [getBestSeeds] *)
Definition seed_indices (np : numpy.t) (tracks : list Track.t)
    (model : AudioModel.t) (limit : Z) : result (list nat) :=
  rows ← feature_rows tracks;
  let mat := numpy.matrix rows in
  diff ← numpy.sub mat (AudioModel.getNumpyVector model);
  let dist := numpy.linalg_norm_axis1 np diff in
  Ok (py.slice_to (numpy.argsort np dist) limit).

(** [tracks[i]] *)
Definition item {A} (l : list A) (i : nat) : result A :=
  match l !! i with
  | Some x => Ok x
  | None => Raise IndexError
  end.

Definition getBestSeeds (np : numpy.t) (tracks : list Track.t)
    (model : AudioModel.t) (limit : Z) : result (list Track.t) :=
  idx ← seed_indices np tracks model limit;
  mapM_r (item tracks) idx.

(** The [cache] flag selects whether the session cache is consulted; the
    decoded response is the same either way. *)
Definition getModelRecommendations (self : t) (model : AudioModel.t)
    (seed_tracks : list Track.t) (limit : Z) : result (list Track.t) :=
  ids ← join_ids (track_id <$> seed_tracks);
  mapM_r track_of (api.recommendations (session self) ids limit model).

(** Line 83: the "Remove duplicates" comprehension. *)
Definition deduplicate (recommendedSongs tracks : list Track.t) : list Track.t :=
  filter (fun tr => track_id tr ∉ track_id <$> tracks) recommendedSongs.

(** Lines 84-85. *)
Definition cap (recommendedSongs : list Track.t) (limit : Z) : list Track.t :=
  if Z.of_nat (length recommendedSongs) >? limit
  then py.slice_to recommendedSongs limit
  else recommendedSongs.

(** The first three lines of [run]: search every input track, drop the
    unresolved ones, attach the audio features.  The tracks that
    [searchTrack] returns are freshly created objects, so they are stored
    at pairwise distinct references. *)
Definition enriched (self : t) : result (list Track.t) :=
  found ← mapM_r (searchTrack self) (tracks self);
  let h := omap (fun x => x) found in
  let refs := seq 0 (length h) in
  rh ← getAudioFeatures self refs h;
  mapM_r (deref rh.2) rh.1.

Definition run (np : numpy.t) (self : t) (limit : Z) : result (list Track.t) :=
  tracks ← enriched self;
  model ← genAverageModel tracks;
  seeds ← getBestSeeds np tracks model 5;
  recommendedSongs ← getModelRecommendations self model seeds limit;
  Ok (cap (deduplicate recommendedSongs tracks) limit).

End PlaylistBuilder.

(** ** Specification vocabulary *)

Module spec.

(** The eight dimensions, in the order of [getNumpyVector]. *)
Definition dimensions : list (AudioModel.t -> option Q) :=
  [AudioModel.acousticness; AudioModel.danceability; AudioModel.energy;
   AudioModel.instrumentalness; AudioModel.liveness; AudioModel.speechiness;
   AudioModel.valence; AudioModel.loudness].

(** A FeatureVector: every dimension is a number. *)
Definition is_vector (m : AudioModel.t) : Prop :=
  Forall (fun d => is_Some (d m)) dimensions.

(** The track carries a FeatureVector. *)
Definition has_vector (tr : Track.t) : Prop :=
  exists af, Track.audio_features tr = Some af /\ is_vector (AudioFeatures.model af).

(** The value of dimension [d] of a track. *)
Definition dimension (d : AudioModel.t -> option Q) (tr : Track.t) : Q :=
  default 0%Q (af ← Track.audio_features tr; d (AudioFeatures.model af)).

(** The NumPy row of a track that carries a FeatureVector. *)
Definition row (tr : Track.t) : list (option Q) :=
  (fun d => Some (dimension d tr)) <$> dimensions.


(** Euclidean distance between a track and the target in the
    eight-dimensional feature space, with NumPy's square root. *)
Definition distance (np : numpy.t) (target : AudioModel.t) (tr : Track.t) : Q :=
  numpy.sqrt np
    (fold_right Qplus 0
       ((fun d => let x := (dimension d tr - default 0 (d target))%Q in (x * x)%Q)
          <$> dimensions))%Q.

(** [dist] and [dist.argsort()] of [getBestSeeds], for tracks that carry
    FeatureVectors. *)
Definition distances (np : numpy.t) (target : AudioModel.t)
    (tracks : list Track.t) : list Q :=
  distance np target <$> tracks.

Definition order (np : numpy.t) (target : AudioModel.t)
    (tracks : list Track.t) : list nat :=
  numpy.argsort np (distances np target tracks).

(** The [ids] parameter of the audio-features request for the tracks at
    [tracks] in store [h]. *)
Definition request_ids (h : PlaylistBuilder.store)
    (tracks : list PlaylistBuilder.ref) : string :=
  py.join "," (omap (fun r => tr ← h !! r; PlaylistBuilder.track_id tr) tracks).

(** The tokens of a query, as the specification words them: one
    [field:value] token per field that has a value, in the order name,
    artist, album, year.  A field has a value when it is set and Python
    takes it for true (a non-empty string, a non-zero number). *)
Definition token (label : string) (value : option string) : list string :=
  match value with
  | Some v => if String.eqb v "" then [] else [label +:+ ":" +:+ v]
  | None => []
  end.

Definition year_token (value : option py.value) : list string :=
  match value with
  | Some (py.Int z) => if z =? 0 then [] else ["year:" +:+ pretty z]
  | Some (py.Str v) => if String.eqb v "" then [] else ["year:" +:+ v]
  | None => []
  end.

Definition tokens (ti : TrackInfo.t) : list string :=
  token "track" (TrackInfo.name ti) ++ token "artist" (TrackInfo.artist ti)
  ++ token "album" (TrackInfo.album ti) ++ year_token (TrackInfo.year ti).


End spec.

(** ** Two index sorts that meet NumPy's contract *)

Module sorts.

Definition Qltb (x y : Q) : bool := negb (Qle_bool y x).

Definition key (ks : list Q) (i : nat) : Q := default 0%Q (ks !! i).

(** Insertion of index [i] in front of the first index it goes [before]. *)
Fixpoint insert_index (before : Q -> Q -> bool) (ks : list Q) (i : nat)
    (idx : list nat) : list nat :=
  match idx with
  | [] => [i]
  | j :: idx' =>
      if before (key ks i) (key ks j) then i :: idx
      else j :: insert_index before ks i idx'
  end.

(** The order a stable sort produces: keys first, indices second. *)
Definition key_then_index (ks : list Q) (a b : nat) : Prop :=
  (key ks a < key ks b)%Q \/ ((key ks a == key ks b)%Q /\ (a < b)%nat).

Definition argsort_by (before : Q -> Q -> bool) (ks : list Q) : list nat :=
  fold_left (fun idx i => insert_index before ks i idx) (seq 0 (length ks)) [].

(** Square root to six decimal places. *)
Definition sqrt6 (q : Q) : Q :=
  Z.sqrt (Qnum q * 1000000 ^ 2 / Zpos (Qden q)) # 1000000.

(** Insertion sort that keeps equal keys in index order. *)
Definition np_stable : numpy.t := numpy.mk sqrt6 (argsort_by Qltb).

End sorts.

(** ** A small catalog *)

Module scenario.

Definition kwargs (a : Q) : AudioFeatures.kwargs :=
  AudioFeatures.mk_kwargs (Some a) (Some (1 # 2)%Q) (Some 200000) (Some (3 # 4)%Q)
    (Some 0%Q) (Some 5) (Some (1 # 10)%Q) (Some (- (6))%Q) (Some 1)
    (Some (1 # 20)%Q) (Some 120%Q) (Some 4) (Some (2 # 5)%Q) None
    (Some "audio_features") None None None None.

Definition info (i : string) : TrackInfo.t :=
  TrackInfo.mk (Some ("song " +:+ i)) (Some "artist") (Some "album")
    (Some (py.Str "1999")) (Some i) (Some ("https://catalog/" +:+ i)).

Definition track (i : string) (a : Q) : Track.t :=
  Track.mk (Some (AudioFeatures.init (kwargs a))) (info i).

Definition bare (i : option string) : Track.t :=
  Track.mk None (TrackInfo.mk (Some "song") None None None i None).

(** Three tracks; the first two are equally far from [target]. *)
Definition t0 : Track.t := track "t0" 1.
Definition t1 : Track.t := track "t1" 3.
Definition t2 : Track.t := track "t2" 2.

Definition target : AudioModel.t :=
  AudioModel.mk (Some 2%Q) (Some (1 # 2)%Q) (Some (3 # 4)%Q) (Some 0%Q)
    (Some (1 # 10)%Q) (Some (1 # 20)%Q) (Some (2 # 5)%Q) (Some (- (6))%Q).

Definition object (i : string) : api.track_object :=
  {| api.track_name := "song " +:+ i;
     api.track_artists := [ {| api.artist_name := "artist" |};
                            {| api.artist_name := "guest" |} ];
     api.track_album := {| api.album_name := "album";
                           api.release_date := "1999-04-01" |};
     api.track_id := i;
     api.track_href := "https://catalog/" +:+ i |}.

(** The catalog knows the songs "A" and "B"; it recommends seven tracks,
    two of which are the inputs themselves. *)
Definition catalog : api.t :=
  api.mk
    (fun q => if String.eqb q "track%3AA" then [object "A"]
              else if String.eqb q "track%3AB" then [object "B"]
              else [])
    (fun ids => if String.eqb ids "A,B" then [kwargs 1; kwargs 3] else [])
    (fun _ _ _ => [object "r1"; object "A"; object "r2"; object "r3";
                   object "B"; object "r4"; object "r5"]).

(** A service that answers every audio-features request with a single
    record. *)
Definition short_catalog : api.t :=
  api.mk (fun _ => []) (fun _ => [kwargs 1]) (fun _ _ _ => []).

Definition short_builder : PlaylistBuilder.t := PlaylistBuilder.mk [] short_catalog.

Definition input (n : string) : Track.t :=
  Track.mk None (TrackInfo.init (Some n) None None None None None None).

Definition builder : PlaylistBuilder.t :=
  PlaylistBuilder.mk [input "A"; input "nobody"; input "B"] catalog.

End scenario.

(** ** Vocabulary of the further properties *)

Module behaviour.



(** No field of the identity has a value. *)
Definition no_field (ti : TrackInfo.t) : Prop :=
  py.truthy_str (TrackInfo.name ti) = false
  /\ py.truthy_str (TrackInfo.artist ti) = false
  /\ py.truthy_str (TrackInfo.album ti) = false
  /\ py.truthy (TrackInfo.year ti) = false.

(** A service that answers every audio-features request with three
    records. *)
Definition long_catalog : api.t :=
  api.mk (fun _ => [])
    (fun _ => [scenario.kwargs 1; scenario.kwargs 3; scenario.kwargs 2])
    (fun _ _ _ => []).

Definition long_builder : PlaylistBuilder.t := PlaylistBuilder.mk [] long_catalog.

(** The first item of the search response for each track that has one:
    the catalog objects [run] resolves the input to, in input order. *)
Definition first_items (session : api.t) (tracks : list Track.t)
  : list api.track_object :=
  omap (fun track => head (api.search session
                             (TrackInfo.genQuery (Track.track_info track))))
       tracks.

Definition resolved (self : PlaylistBuilder.t) : list api.track_object :=
  first_items (PlaylistBuilder.session self) (PlaylistBuilder.tracks self).

(** The audio-features response [run] gets for the resolved tracks. *)
Definition resolved_features (self : PlaylistBuilder.t) : list AudioFeatures.kwargs :=
  api.audio_features (PlaylistBuilder.session self)
    (py.join "," (api.track_id <$> resolved self)).

(** Record [i] attached to track [i], as far as the records go. *)
Fixpoint attach (tracks : list Track.t) (features : list AudioFeatures.kwargs)
  : list Track.t :=
  match tracks, features with
  | tr :: tracks', f :: features' =>
      Track.set_audio_features (AudioFeatures.init f) tr :: attach tracks' features'
  | _, _ => tracks
  end.

End behaviour.

(** ** NumPy's default index sort *)

Module npysort.

(** [ndarray.argsort()] with the default [kind] on a one-dimensional
    float64 array without NaN runs NumPy's [aquicksort]
    (numpy/_core/src/npysort/quicksort.cpp): an introsort over an array
    [tosort] of indices, which partitions (median of three) while a
    segment has more than [SMALL_QUICKSORT + 1] elements, finishes every
    segment by insertion sort, and falls back to heap sort when the
    partition depth exceeds [2 * floor(log2 n)].  Pointers into [tosort]
    are positions; the loops carry fuel that their sentinels never use up;
    the heap sort is a parameter, and nothing below depends on it.  This
    is NumPy's portable routine; a build that dispatches float64 argsort
    to a vectorised sort is not modelled. *)

Definition SMALL_QUICKSORT : nat := 16.

(** [LT(a, b)] for floats that are not NaN *)
Definition LT (a b : Q) : bool := negb (Qle_bool b a).

Section aquicksort.

Context (v : list Q).
Context (aheapsort : list nat -> nat -> nat -> list nat).

(** [v[i]] and [v[*p]] *)
Definition value (i : nat) : Q := default 0%Q (v !! i).
Definition at_ (tosort : list nat) (p : nat) : Q :=
  value (default 0%nat (tosort !! p)).

(** [INTP_SWAP( *p, *q )] *)
Definition swap (tosort : list nat) (p q : nat) : list nat :=
  match tosort !! p, tosort !! q with
  | Some x, Some y => <[p := y]> (<[q := x]> tosort)
  | _, _ => tosort
  end.

(** [do ++pi; while (LT(v[*pi], vp));] *)
Fixpoint scan_up (fuel : nat) (tosort : list nat) (vp : Q) (pi : nat) : nat :=
  match fuel with
  | O => S pi
  | S fuel' =>
      if LT (at_ tosort (S pi)) vp then scan_up fuel' tosort vp (S pi) else S pi
  end.

(** [do --pj; while (LT(vp, v[*pj]));] *)
Fixpoint scan_down (tosort : list nat) (vp : Q) (pj : nat) : nat :=
  match pj with
  | O => O
  | S pj' => if LT vp (at_ tosort pj') then scan_down tosort vp pj' else pj'
  end.

(** The [for (;;)] loop of the partition; it returns [tosort] and [pi]. *)
Fixpoint partition_loop (fuel : nat) (tosort : list nat) (vp : Q) (pi pj : nat)
  : list nat * nat :=
  match fuel with
  | O => (tosort, pi)
  | S fuel' =>
      let pi := scan_up (length tosort) tosort vp pi in
      let pj := scan_down tosort vp pj in
      if (pj <=? pi)%nat then (tosort, pi)
      else partition_loop fuel' (swap tosort pi pj) vp pi pj
  end.

(** One round of the [while ((pr - pl) > SMALL_QUICKSORT)] loop, up to the
    final swap of the pivot into place. *)
Definition partition (tosort : list nat) (pl pr : nat) : list nat * nat :=
  let pm := (pl + (pr - pl) / 2)%nat in
  let tosort := if LT (at_ tosort pm) (at_ tosort pl) then swap tosort pm pl else tosort in
  let tosort := if LT (at_ tosort pr) (at_ tosort pm) then swap tosort pr pm else tosort in
  let tosort := if LT (at_ tosort pm) (at_ tosort pl) then swap tosort pm pl else tosort in
  let vp := at_ tosort pm in
  let tosort := swap tosort pm (pr - 1)%nat in
  let r := partition_loop (length tosort) tosort vp pl (pr - 1)%nat in
  (swap r.1 r.2 (pr - 1)%nat, r.2).

(** The state of the outer loop: [tosort], [pl], [pr], the stack of
    pending segments, [cdepth] and the stack of depths. *)
Record state : Type := mk {
  tosort : list nat;
  pl : nat;
  pr : nat;
  stack : list (nat * nat);
  cdepth : Z;
  depth : list Z
}.

(** [while ((pr - pl) > SMALL_QUICKSORT)]: partition, push the larger
    part, go on with the smaller one. *)
Fixpoint partition_while (fuel : nat) (st : state) : state :=
  match fuel with
  | O => st
  | S fuel' =>
      if (SMALL_QUICKSORT <? pr st - pl st)%nat then
        let r := partition (tosort st) (pl st) (pr st) in
        let pi := r.2 in
        let cd := cdepth st - 1 in
        if (pi - pl st <? pr st - pi)%nat
        then partition_while fuel'
               (mk r.1 (pl st) (pi - 1)%nat ((S pi, pr st) :: stack st) cd (cd :: depth st))
        else partition_while fuel'
               (mk r.1 (S pi) (pr st) ((pl st, (pi - 1)%nat) :: stack st) cd (cd :: depth st))
      else st
  end.

(** The inner loop of the insertion sort: [vi] moves down past every
    index whose value is greater.  The sorted part is read from its last
    element, as [pk] does. *)
Fixpoint insert_back (vi : nat) (sorted_rev : list nat) : list nat :=
  match sorted_rev with
  | [] => [vi]
  | k :: rest =>
      if LT (value vi) (value k) then k :: insert_back vi rest
      else vi :: sorted_rev
  end.

Definition insertion_sort (segment : list nat) : list nat :=
  reverse (fold_left (fun sorted_rev vi => insert_back vi sorted_rev) segment []).

(** The insertion sort of [tosort[pl..pr]], in place. *)
Definition insertion (tosort : list nat) (pl pr : nat) : list nat :=
  take pl tosort
  ++ insertion_sort (take (S pr - pl)%nat (drop pl tosort))
  ++ drop (S pr) tosort.

(** The outer [while (1)] loop. *)
Fixpoint outer (fuel : nat) (st : state) : list nat :=
  match fuel with
  | O => tosort st
  | S fuel' =>
      let st1 := partition_while (length (tosort st)) st in
      let sorted :=
        if cdepth st <? 0
        then aheapsort (tosort st) (pl st) (S (pr st) - pl st)%nat
        else insertion (tosort st1) (pl st1) (pr st1) in
      let pending := if cdepth st <? 0 then st else st1 in
      match stack pending, depth pending with
      | (pl', pr') :: stack', cd :: depth' =>
          outer fuel' (mk sorted pl' pr' stack' cd depth')
      | _, _ => sorted
      end
  end.

(** [argsort]: the indices start in order. *)
Definition argsort : list nat :=
  let num := length v in
  outer (S num)
    (mk (seq 0 num) 0%nat (num - 1)%nat [] (2 * Z.log2 (Z.of_nat num)) []).

End aquicksort.

(** NumPy with this [argsort]. *)
Definition numpy (sqrt : Q -> Q)
    (aheapsort : list Q -> list nat -> nat -> nat -> list nat) : numpy.t :=
  numpy.mk sqrt (fun v => argsort v (aheapsort v)).



End npysort.

(** * Properties *)

(** ** The error monad *)

Lemma bind_Ok {A B} (m : result A) (f : A -> result B) (b : B) :
  m ≫= f = Ok b -> exists a, m = Ok a /\ f a = Ok b.
Proof. destruct m as [a|e]; simpl; [eauto | discriminate]. Qed.

Lemma mapM_r_Forall2 {A B} (f : A -> result B) (l : list A) (l' : list B) :
  mapM_r f l = Ok l' <-> Forall2 (fun x y => f x = Ok y) l l'.
Proof.
  revert l'; induction l as [|x l IH]; intros l'; simpl.
  - split; [intros [= <-]; constructor | inversion 1; reflexivity].
  - split.
    + intros H. apply bind_Ok in H as (y & Hy & H).
      apply bind_Ok in H as (ys & Hys & [= <-]).
      constructor; [assumption | by apply IH].
    + inversion 1 as [|? y ? ys Hy Hys]; subst.
      rewrite Hy; simpl. apply IH in Hys. rewrite Hys. reflexivity.
Qed.

Lemma mapM_r_map {A B} (f : A -> result B) (g : A -> B) (l : list A) :
  Forall (fun x => f x = Ok (g x)) l -> mapM_r f l = Ok (g <$> l).
Proof.
  induction 1 as [|x l Hx _ IH]; simpl; [reflexivity|].
  rewrite Hx; simpl. rewrite IH. reflexivity.
Qed.

Lemma mapM_r_length {A B} (f : A -> result B) (l : list A) (l' : list B) :
  mapM_r f l = Ok l' -> length l' = length l.
Proof. intros H. apply mapM_r_Forall2, Forall2_length in H. congruence. Qed.

(** ** Slices *)

Lemma slice_to_prefix {A} (l : list A) (stop : Z) :
  exists n, py.slice_to l stop = take n l.
Proof. unfold py.slice_to. destruct (stop <? 0); eauto. Qed.

Lemma slice_to_nonneg {A} (l : list A) (stop : Z) :
  0 <= stop -> py.slice_to l stop = take (Z.to_nat stop) l.
Proof.
  intros H. unfold py.slice_to.
  destruct (Z.ltb_spec stop 0); [lia | reflexivity].
Qed.

Lemma slice_to_length_nonneg {A} (l : list A) (stop : Z) :
  0 <= stop -> Z.of_nat (length (py.slice_to l stop)) = Z.min stop (Z.of_nat (length l)).
Proof. intros H. rewrite slice_to_nonneg, length_take by assumption. lia. Qed.

(** ** Query construction *)

Lemma genQuery_tokens (ti : TrackInfo.t) :
  TrackInfo.genQuery ti = py.quote (py.join " " (spec.tokens ti)).
Proof.
  destruct ti as [n a al y i h].
  unfold TrackInfo.genQuery, spec.tokens, spec.token, spec.year_token.
  cbn [TrackInfo.name TrackInfo.artist TrackInfo.album TrackInfo.year].
  f_equal. f_equal.
  assert (Hy : exists oy : option string,
             (if py.truthy y then (fun v => "year:" +:+ py.str v) <$> y else None)
             = (fun v => "year:" +:+ v) <$> oy
             /\ match y with
                | Some (py.Int z) => if z =? 0 then [] else ["year:" +:+ pretty z]
                | Some (py.Str v) => if String.eqb v "" then [] else ["year:" +:+ v]
                | None => []
                end = from_option (fun v => ["year:" +:+ v]) [] oy).
  { destruct y as [[z|v]|]; cbn [py.truthy py.str negb].
    - destruct (z =? 0); [by exists None | by exists (Some (pretty z))].
    - destruct (String.eqb v ""); [by exists None | by exists (Some v)].
    - by exists None. }
  destruct Hy as (oy & -> & ->). clear y.
  destruct n as [n|], a as [a|], al as [al|], oy as [v|];
    cbn [py.truthy_str negb];
    repeat match goal with
           | |- context [String.eqb ?x ""] => destruct (String.eqb x "")
           end;
    reflexivity.
Qed.

(** C6: [genQuery] URL-encodes the space-separated [field:value] tokens of
    the fields that have a value, in the fixed order name, artist, album,
    year (the name under the label [track]); for the identity with name
    "Foo" and artist "Bar" this is the encoding of "track:Foo artist:Bar",
    namely "track%3AFoo%20artist%3ABar". *)
Theorem genQuery_joins_available_fields :
  (forall ti : TrackInfo.t,
      TrackInfo.genQuery ti = py.quote (py.join " " (spec.tokens ti)))
  /\ TrackInfo.genQuery
       (TrackInfo.init (Some "Foo") (Some "Bar") None None None None None)
     = py.quote "track:Foo artist:Bar"
  /\ py.quote "track:Foo artist:Bar" = "track%3AFoo%20artist%3ABar".
Proof.
  split; [exact genQuery_tokens|].
  split; [rewrite genQuery_tokens|]; reflexivity.
Qed.

(** C8: for an identity with no name, artist, album or year, whatever its
    id and href, [genQuery] is the empty string; [genQuery] is a total
    function, so nothing is raised. *)
Theorem genQuery_no_fields_is_empty (i h : option string) :
  TrackInfo.genQuery (TrackInfo.init None None None None i h None) = "".
Proof. rewrite genQuery_tokens. reflexivity. Qed.

(** ** Search *)



(** ** Deduplication and cap *)

Lemma elem_of_cap (recs : list Track.t) (limit : Z) (tr : Track.t) :
  tr ∈ PlaylistBuilder.cap recs limit -> tr ∈ recs.
Proof.
  unfold PlaylistBuilder.cap.
  destruct (Z.of_nat (length recs) >? limit); [|done].
  destruct (slice_to_prefix recs limit) as [n ->].
  apply (subseteq_take n recs).
Qed.

Lemma run_Ok (np : numpy.t) (self : PlaylistBuilder.t) (limit : Z) (out : list Track.t) :
  PlaylistBuilder.run np self limit = Ok out ->
  exists tracks recs,
    PlaylistBuilder.enriched self = Ok tracks
    /\ out = PlaylistBuilder.cap (PlaylistBuilder.deduplicate recs tracks) limit.
Proof.
  unfold PlaylistBuilder.run. intros H.
  apply bind_Ok in H as (tracks & Htracks & H).
  apply bind_Ok in H as (model & _ & H).
  apply bind_Ok in H as (seeds & _ & H).
  apply bind_Ok in H as (recs & _ & [= <-]).
  eauto.
Qed.

(** C4: no track kept by the deduplication step has the catalog id of a
    track of the enriched input set; hence whenever [run] returns a list,
    no id in it appears among the ids of the enriched input tracks. *)
Theorem deduplicate_excludes_input_ids :
  (forall (recs tracks : list Track.t) (tr t : Track.t),
      tr ∈ PlaylistBuilder.deduplicate recs tracks ->
      t ∈ tracks ->
      PlaylistBuilder.track_id tr <> PlaylistBuilder.track_id t)
  /\ (forall (np : numpy.t) (self : PlaylistBuilder.t) (limit : Z) (out : list Track.t),
         PlaylistBuilder.run np self limit = Ok out ->
         exists tracks,
           PlaylistBuilder.enriched self = Ok tracks
           /\ forall tr t, tr ∈ out -> t ∈ tracks ->
                PlaylistBuilder.track_id tr <> PlaylistBuilder.track_id t).
Proof.
  assert (Hstep : forall (recs tracks : list Track.t) (tr t : Track.t),
             tr ∈ PlaylistBuilder.deduplicate recs tracks ->
             t ∈ tracks ->
             PlaylistBuilder.track_id tr <> PlaylistBuilder.track_id t).
  { intros recs tracks tr t Htr Ht Heq.
    unfold PlaylistBuilder.deduplicate in Htr.
    apply list_elem_of_filter in Htr as [Hnot _].
    apply Hnot. rewrite Heq. by apply list_elem_of_fmap_2. }
  split; [exact Hstep|].
  intros np self limit out Hrun.
  apply run_Ok in Hrun as (tracks & recs & Htracks & ->).
  exists tracks. split; [assumption|].
  intros tr t Htr. apply Hstep with recs. by apply elem_of_cap in Htr.
Qed.

Lemma deduplicate_excludes_input_ids_witness :
  exists out tracks,
    PlaylistBuilder.run sorts.np_stable scenario.builder 5 = Ok out
    /\ PlaylistBuilder.enriched scenario.builder = Ok tracks
    /\ length out = 5%nat
    /\ forall tr t, tr ∈ out -> t ∈ tracks ->
         PlaylistBuilder.track_id tr <> PlaylistBuilder.track_id t.
Proof.
  destruct (PlaylistBuilder.run sorts.np_stable scenario.builder 5) as [out|e] eqn:Hrun;
    [|vm_compute in Hrun; discriminate].
  destruct (proj2 deduplicate_excludes_input_ids _ _ _ _ Hrun) as (tracks & Htracks & H).
  exists out, tracks. split; [reflexivity|]. split; [assumption|].
  split; [|assumption].
  vm_compute in Hrun. injection Hrun as <-. reflexivity.
Defined.

(** C5, as the code has it: for a limit that is not negative the list
    [run] returns is no longer than the limit, and the list is cut only
    when the deduplicated list is longer than the limit. *)
Theorem cap_bounds_length :
  (forall (recs : list Track.t) (limit : Z),
      0 <= limit -> Z.of_nat (length (PlaylistBuilder.cap recs limit)) <= limit)
  /\ (forall (recs : list Track.t) (limit : Z),
         Z.of_nat (length recs) <= limit -> PlaylistBuilder.cap recs limit = recs)
  /\ (forall (np : numpy.t) (self : PlaylistBuilder.t) (limit : Z) (out : list Track.t),
         0 <= limit ->
         PlaylistBuilder.run np self limit = Ok out ->
         Z.of_nat (length out) <= limit).
Proof.
  assert (Hcap : forall (recs : list Track.t) (limit : Z),
             0 <= limit -> Z.of_nat (length (PlaylistBuilder.cap recs limit)) <= limit).
  { intros recs limit Hlimit. unfold PlaylistBuilder.cap.
    destruct (Z.gtb_spec (Z.of_nat (length recs)) limit); [|lia].
    rewrite slice_to_length_nonneg by assumption. lia. }
  split; [exact Hcap|]. split.
  - intros recs limit Hle. unfold PlaylistBuilder.cap.
    destruct (Z.gtb_spec (Z.of_nat (length recs)) limit); [lia | reflexivity].
  - intros np self limit out Hlimit Hrun.
    apply run_Ok in Hrun as (tracks & recs & _ & ->). by apply Hcap.
Qed.

Lemma cap_bounds_length_witness :
  exists out,
    PlaylistBuilder.run sorts.np_stable scenario.builder 3 = Ok out
    /\ Z.of_nat (length out) <= 3.
Proof.
  destruct (PlaylistBuilder.run sorts.np_stable scenario.builder 3) as [out|e] eqn:Hrun;
    [|vm_compute in Hrun; discriminate].
  exists out. split; [reflexivity|].
  apply (proj2 (proj2 cap_bounds_length) sorts.np_stable scenario.builder 3 out);
    [lia | exact Hrun].
Defined.

(** C5 as stated fails for a negative limit: with limit -1 the slice drops
    only the last of three deduplicated tracks, and [run] on the small
    catalog returns four tracks. *)
Lemma cap_negative_limit_exceeds :
  PlaylistBuilder.cap [scenario.t0; scenario.t1; scenario.t2] (-1)
  = [scenario.t0; scenario.t1]
  /\ (exists out,
         PlaylistBuilder.run sorts.np_stable scenario.builder (-1) = Ok out
         /\ length out = 4%nat)
  /\ ~ (forall (np : numpy.t) (self : PlaylistBuilder.t) (limit : Z) (out : list Track.t),
           PlaylistBuilder.run np self limit = Ok out ->
           Z.of_nat (length out) <= limit).
Proof.
  assert (Hrun : exists out,
             PlaylistBuilder.run sorts.np_stable scenario.builder (-1) = Ok out
             /\ length out = 4%nat).
  { eexists. split; [vm_compute; reflexivity | reflexivity]. }
  split; [reflexivity|]. split; [exact Hrun|].
  intros H. destruct Hrun as (out & Hout & Hlen).
  specialize (H _ _ _ _ Hout). rewrite Hlen in H. lia.
Qed.

(** ** Feature vectors as NumPy rows *)

Lemma is_vector_getNumpyVector (m : AudioModel.t) :
  spec.is_vector m ->
  AudioModel.getNumpyVector m = (fun d => Some (default 0%Q (d m))) <$> spec.dimensions.
Proof.
  unfold spec.is_vector, spec.dimensions. intros H.
  repeat match goal with
         | H : Forall _ (_ :: _) |- _ =>
             let Hx := fresh in let Hl := fresh in
             apply Forall_cons in H as [Hx Hl]; destruct Hx as [? ?]
         end.
  unfold AudioModel.getNumpyVector. simpl.
  repeat match goal with E : _ = Some _ |- _ => rewrite E; clear E end.
  reflexivity.
Qed.

Lemma feature_rows_vectors (tracks : list Track.t) :
  Forall spec.has_vector tracks ->
  PlaylistBuilder.feature_rows tracks = Ok (spec.row <$> tracks).
Proof.
  intros H. apply mapM_r_map.
  eapply Forall_impl; [exact H|].
  intros tr (af & Haf & Hvec). rewrite Haf. simpl.
  rewrite (is_vector_getNumpyVector _ Hvec).
  unfold spec.row, spec.dimension. rewrite Haf. reflexivity.
Qed.

Lemma row_lookup (j : nat) (d : AudioModel.t -> option Q) (tr : Track.t) :
  spec.dimensions !! j = Some d ->
  spec.row tr !! j = Some (Some (spec.dimension d tr)).
Proof. intros Hd. unfold spec.row. rewrite list_lookup_fmap, Hd. reflexivity. Qed.

Lemma add_reduce_column (j : nat) (d : AudioModel.t -> option Q) (tracks : list Track.t) :
  spec.dimensions !! j = Some d ->
  numpy.add_reduce (numpy.column j (spec.row <$> tracks))
  = Ok (fold_right Qplus 0%Q (spec.dimension d <$> tracks)).
Proof.
  intros Hd. induction tracks as [|tr tracks IH]; [reflexivity|].
  cbn [fmap list_fmap numpy.column numpy.add_reduce] in *.
  rewrite (row_lookup _ _ _ Hd). simpl.
  unfold numpy.column in IH. rewrite IH. reflexivity.
Qed.

(** ** Averaging *)



Lemma scenario_tracks_have_vectors :
  Forall spec.has_vector [scenario.t0; scenario.t1; scenario.t2].
Proof.
  repeat constructor; eexists; (split; [reflexivity|]);
    unfold spec.is_vector, spec.dimensions; repeat constructor; by eexists.
Qed.



(** ** The two index sorts meet NumPy's contract *)

Lemma StronglySorted_lookup (R : nat -> nat -> Prop) (l : list nat) (i j a b : nat) :
  StronglySorted R l -> (i < j)%nat ->
  l !! i = Some a -> l !! j = Some b -> R a b.
Proof.
  intros Hsorted. revert i j.
  induction Hsorted as [|x l _ IH Hall]; intros i j Hij Hi Hj; [done|].
  destruct j as [|j]; [lia|]. destruct i as [|i]; simpl in *.
  - injection Hi as <-. rewrite Forall_forall in Hall.
    apply Hall. by apply list_elem_of_lookup_2 with j.
  - apply IH with i j; [lia | done | done].
Qed.

Section insertion.

Context (before : Q -> Q -> bool) (ks : list Q) (R : nat -> nat -> Prop).

Hypothesis R_trans : forall a b c, R a b -> R b c -> R a c.

(** An index meets only smaller indices when it is inserted. *)
Hypothesis before_R : forall i j,
    (j < i)%nat ->
    if before (sorts.key ks i) (sorts.key ks j) then R i j else R j i.

Lemma insert_index_perm (i : nat) (idx : list nat) :
  Permutation (sorts.insert_index before ks i idx) (i :: idx).
Proof.
  induction idx as [|j idx IH]; simpl; [done|].
  destruct (before _ _); [done|].
  rewrite IH. apply perm_swap.
Qed.

Lemma insert_index_sorted (i : nat) (idx : list nat) :
  StronglySorted R idx ->
  Forall (fun j => (j < i)%nat) idx ->
  StronglySorted R (sorts.insert_index before ks i idx).
Proof.
  induction 1 as [|j idx Hsorted IH Hall]; intros Hlt; simpl.
  - repeat constructor.
  - apply Forall_cons in Hlt as [Hj Hlt].
    pose proof (before_R i j Hj) as Hb.
    destruct (before _ _).
    + constructor; [by constructor|].
      constructor; [assumption|].
      eapply Forall_impl; [exact Hall|]. intros x Hx. by apply R_trans with j.
    + constructor; [by apply IH|].
      rewrite (insert_index_perm i idx). by constructor.
Qed.

Lemma fold_insert_perm (l acc : list nat) :
  Permutation (fold_left (fun idx i => sorts.insert_index before ks i idx) l acc)
    (acc ++ l).
Proof.
  revert acc; induction l as [|i l IH]; intros acc; simpl.
  - by rewrite app_nil_r.
  - rewrite IH, insert_index_perm. simpl. apply Permutation_middle.
Qed.

Lemma fold_insert_sorted (k m : nat) (acc : list nat) :
  StronglySorted R acc ->
  Forall (fun j => (j < m)%nat) acc ->
  StronglySorted R
    (fold_left (fun idx i => sorts.insert_index before ks i idx) (seq m k) acc).
Proof.
  revert m acc; induction k as [|k IH]; intros m acc Hsorted Hlt; simpl; [done|].
  apply IH; [by apply insert_index_sorted|].
  rewrite (insert_index_perm m acc).
  constructor; [lia|]. eapply Forall_impl; [exact Hlt|]. simpl. lia.
Qed.

Lemma argsort_by_perm :
  Permutation (sorts.argsort_by before ks) (seq 0 (length ks)).
Proof. unfold sorts.argsort_by. by rewrite fold_insert_perm. Qed.

Lemma argsort_by_sorted : StronglySorted R (sorts.argsort_by before ks).
Proof. apply fold_insert_sorted; constructor. Qed.

End insertion.

Lemma key_lookup (ks : list Q) (a : nat) (ka : Q) :
  ks !! a = Some ka -> sorts.key ks a = ka.
Proof. unfold sorts.key. by intros ->. Qed.

Lemma Qle_bool_false (x y : Q) : Qle_bool x y = false -> (y < x)%Q.
Proof.
  intros H. apply Qnot_le_lt. intros Hle.
  apply Qle_bool_iff in Hle. congruence.
Qed.

Lemma np_stable_sorted (ks : list Q) :
  StronglySorted (sorts.key_then_index ks) (numpy.argsort sorts.np_stable ks).
Proof.
  apply argsort_by_sorted.
  - unfold sorts.key_then_index. intros x y z [Hxy|[Hxy Hlt]] [Hyz|[Hyz Hlt']].
    + left. lra.
    + left. lra.
    + left. lra.
    + right. split; [lra | lia].
  - intros x y Hlt. unfold sorts.Qltb, sorts.key_then_index.
    destruct (Qle_bool _ _) eqn:Hb; simpl.
    + apply Qle_bool_iff, Qle_lt_or_eq in Hb as [Hb|Hb]; [by left | by right].
    + left. by apply Qle_bool_false.
Qed.

Lemma np_stable_contract : numpy.contract sorts.np_stable.
Proof.
  intros ks. split; [apply argsort_by_perm|].
  intros i j a b ka kb Hij Hi Hj Ha Hb.
  apply key_lookup in Ha, Hb. subst ka kb.
  destruct (decide (i = j)) as [->|Hne].
  - assert (a = b) as -> by congruence. apply Qle_refl.
  - destruct (StronglySorted_lookup _ _ i j a b (np_stable_sorted ks))
      as [Hlt|[Heq _]]; [lia | done | done | lra | lra].
Qed.

(** ** Seed selection *)

Lemma sub_rows (tracks : list Track.t) (target : AudioModel.t) :
  spec.is_vector target ->
  numpy.sub (spec.row <$> tracks) (AudioModel.getNumpyVector target)
  = Ok ((fun tr => (fun d => spec.dimension d tr - default 0 (d target))%Q
                     <$> spec.dimensions) <$> tracks).
Proof.
  intros Htarget. rewrite (is_vector_getNumpyVector _ Htarget).
  unfold numpy.sub. induction tracks as [|tr tracks IH]; [reflexivity|].
  cbn [fmap list_fmap mapM_r] in *. rewrite IH. reflexivity.
Qed.

Lemma lookups_exist {A} (l : list A) (idx : list nat) :
  Forall (fun i => is_Some (l !! i)) idx ->
  exists out, Forall2 (fun i x => l !! i = Some x) idx out.
Proof.
  induction 1 as [|i idx [x Hx] _ [out IH]]; [by exists []|].
  exists (x :: out). by constructor.
Qed.

Section seeds.

Context (np : numpy.t) (tracks : list Track.t) (target : AudioModel.t) (limit : Z).

Hypothesis np_contract : numpy.contract np.
Hypothesis tracks_nonempty : tracks <> [].
Hypothesis tracks_vectors : Forall spec.has_vector tracks.
Hypothesis target_vector : spec.is_vector target.

Let dist : list Q := spec.distances np target tracks.
Let order : list nat := spec.order np target tracks.

Lemma seed_indices_order :
  PlaylistBuilder.seed_indices np tracks target limit = Ok (py.slice_to order limit).
Proof.
  unfold PlaylistBuilder.seed_indices.
  rewrite (feature_rows_vectors _ tracks_vectors). simpl.
  assert (Hmat : numpy.matrix (spec.row <$> tracks) = spec.row <$> tracks)
    by (destruct tracks; [done | reflexivity]).
  rewrite Hmat, (sub_rows _ _ target_vector). simpl.
  unfold numpy.linalg_norm_axis1. rewrite <- list_fmap_compose.
  reflexivity.
Qed.

Lemma order_perm : Permutation order (seq 0 (length tracks)).
Proof.
  unfold order, spec.order. rewrite (proj1 (np_contract _)).
  unfold spec.distances. by rewrite length_fmap.
Qed.

Lemma order_NoDup : NoDup order.
Proof. rewrite order_perm. apply NoDup_seq. Qed.

Lemma order_lookup (i a : nat) :
  order !! i = Some a -> exists ta, tracks !! a = Some ta.
Proof.
  intros Hi. apply list_elem_of_lookup_2 in Hi.
  rewrite order_perm in Hi. apply elem_of_seq in Hi.
  apply lookup_lt_is_Some_2. lia.
Qed.



(** The selected indices are a prefix of the argsort, and every one of
    them is a position of [tracks]. *)
Lemma seeds_selected :
  exists (n : nat) (out : list Track.t),
    py.slice_to order limit = take n order
    /\ PlaylistBuilder.seed_indices np tracks target limit = Ok (take n order)
    /\ PlaylistBuilder.getBestSeeds np tracks target limit = Ok out
    /\ Forall2 (fun i tr => tracks !! i = Some tr) (take n order) out.
Proof.
  destruct (slice_to_prefix order limit) as [n Hn].
  assert (Hout : exists out, Forall2 (fun i tr => tracks !! i = Some tr) (take n order) out).
  { assert (Hall : Forall (fun i => is_Some (tracks !! i)) (take n order)).
    { apply Forall_forall. intros a Ha. apply elem_of_take in Ha as (i & Hi & _).
      by apply order_lookup in Hi. }
    by apply lookups_exist. }
  destruct Hout as [out Hout]. exists n, out.
  split; [done|]. split; [by rewrite seed_indices_order, Hn|]. split; [|done].
  unfold PlaylistBuilder.getBestSeeds. rewrite seed_indices_order, Hn. simpl.
  apply mapM_r_Forall2. eapply Forall2_impl; [exact Hout|].
  intros i tr Hi. unfold PlaylistBuilder.item. by rewrite Hi.
Qed.

End seeds.

Lemma order_length (np : numpy.t) (tracks : list Track.t) (target : AudioModel.t) :
  numpy.contract np -> length (spec.order np target tracks) = length tracks.
Proof.
  intros Hnp. rewrite (Permutation_length (order_perm np tracks target Hnp)).
  apply length_seq.
Qed.

Lemma scenario_target_vector : spec.is_vector scenario.target.
Proof. unfold spec.is_vector, spec.dimensions. repeat constructor; by eexists. Qed.




(** C10, as the code has it: for a non-empty list of tracks that all carry
    a FeatureVector, a target vector and a limit that is not negative, the
    selected positions are pairwise distinct, form the first part of a
    permutation of the input positions, the returned tracks are the
    tracks at these positions, and there are exactly min(limit, input
    length) of them. *)
Theorem getBestSeeds_distinct_positions (np : numpy.t) (tracks : list Track.t)
    (target : AudioModel.t) (limit : Z) :
  numpy.contract np ->
  tracks <> [] ->
  Forall spec.has_vector tracks ->
  spec.is_vector target ->
  0 <= limit ->
  exists (idx perm : list nat) (out : list Track.t),
    PlaylistBuilder.seed_indices np tracks target limit = Ok idx
    /\ PlaylistBuilder.getBestSeeds np tracks target limit = Ok out
    /\ Forall2 (fun i tr => tracks !! i = Some tr) idx out
    /\ NoDup idx
    /\ Permutation perm (seq 0 (length tracks))
    /\ idx `prefix_of` perm
    /\ Z.of_nat (length out) = Z.min limit (Z.of_nat (length tracks)).
Proof.
  intros Hnp Hne Hvec Htarget Hlimit.
  destruct (seeds_selected np tracks target limit Hnp Hne Hvec Htarget)
    as (n & out & Hslice & Hidx & Hout & Hall).
  exists (take n (spec.order np target tracks)), (spec.order np target tracks), out.
  repeat split; try done.
  - apply sublist_NoDup with (spec.order np target tracks);
      [by apply order_NoDup | apply sublist_take].
  - by apply order_perm.
  - apply prefix_take.
  - rewrite <- (Forall2_length _ _ _ Hall), <- Hslice.
    rewrite slice_to_length_nonneg by done. by rewrite order_length.
Qed.

Lemma getBestSeeds_distinct_positions_witness :
  exists out,
    PlaylistBuilder.getBestSeeds sorts.np_stable
      [scenario.t0; scenario.t1; scenario.t2] scenario.target 5 = Ok out
    /\ length out = 3%nat.
Proof.
  destruct (getBestSeeds_distinct_positions sorts.np_stable
              [scenario.t0; scenario.t1; scenario.t2] scenario.target 5
              np_stable_contract ltac:(discriminate) scenario_tracks_have_vectors
              scenario_target_vector ltac:(lia))
    as (idx & perm & out & _ & Hout & _ & _ & _ & _ & Hlen).
  exists out. split; [exact Hout|]. simpl in Hlen. lia.
Defined.

(** C10 as stated fails for a negative limit, where the slice keeps
    [length + limit] tracks and not min(limit, length), and on the empty
    list, where ValueError is raised and no list is returned. *)
Lemma getBestSeeds_length_not_min :
  PlaylistBuilder.getBestSeeds sorts.np_stable
    [scenario.t0; scenario.t1; scenario.t2] scenario.target (-1)
  = Ok [scenario.t2; scenario.t0]
  /\ Z.of_nat (length [scenario.t2; scenario.t0]) <> Z.min (-1) 3
  /\ PlaylistBuilder.getBestSeeds sorts.np_stable [] scenario.target 5 = Raise ValueError
  /\ ~ (forall (np : numpy.t) (tracks : list Track.t) (target : AudioModel.t) (limit : Z),
           numpy.contract np ->
           Forall spec.has_vector tracks ->
           spec.is_vector target ->
           exists out,
             PlaylistBuilder.getBestSeeds np tracks target limit = Ok out
             /\ Z.of_nat (length out) = Z.min limit (Z.of_nat (length tracks))).
Proof.
  split; [vm_compute; reflexivity|]. split; [simpl; lia|]. split; [reflexivity|].
  intros H.
  destruct (H sorts.np_stable [] scenario.target 5
              np_stable_contract ltac:(constructor) scenario_target_vector)
    as (out & Hout & _).
  discriminate.
Qed.

(** *** Ties *)














(** ** Audio features *)

Section assign.

Context (upd := fun f => Track.set_audio_features (AudioFeatures.init f)).






End assign.

Lemma request_ok (self : PlaylistBuilder.t) (tracks : list nat) (h : list Track.t) :
  (forall r, r ∈ tracks ->
             exists tr i, h !! r = Some tr /\ PlaylistBuilder.track_id tr = Some i) ->
  PlaylistBuilder.getAudioFeatures self tracks h
  = Ok (tracks,
        PlaylistBuilder.assign_features tracks
          (api.audio_features (PlaylistBuilder.session self) (spec.request_ids h tracks))
          h).
Proof.
  intros Hall.
  assert (Hlists : exists objs strs,
             Forall2 (fun r tr => h !! r = Some tr) tracks objs
             /\ Forall2 (fun tr s => PlaylistBuilder.track_id tr = Some s) objs strs
             /\ omap (fun r => tr ← h !! r; PlaylistBuilder.track_id tr) tracks = strs).
  { induction tracks as [|r tracks IH]; [by exists [], []|].
    destruct IH as (objs & strs & Hobjs & Hstrs & Homap).
    { intros r' Hr'. apply Hall. by right. }
    destruct (Hall r) as (tr & i & Hr & Hi); [by left|].
    exists (tr :: objs), (i :: strs).
    split; [by constructor|]. split; [by constructor|].
    rewrite <- Homap. simpl. rewrite Hr. simpl. by rewrite Hi. }
  destruct Hlists as (objs & strs & Hobjs & Hstrs & Homap).
  unfold PlaylistBuilder.getAudioFeatures.
  assert (Hderef : mapM_r (PlaylistBuilder.deref h) tracks = Ok objs).
  { apply mapM_r_Forall2. eapply Forall2_impl; [exact Hobjs|].
    intros r tr Hr. unfold PlaylistBuilder.deref. by rewrite Hr. }
  rewrite Hderef. simpl.
  unfold PlaylistBuilder.join_ids.
  assert (Hjoin : mapM_r (fun i : option string =>
                            match i with Some s => Ok s | None => Raise TypeError end)
                    (PlaylistBuilder.track_id <$> objs) = Ok strs).
  { apply mapM_r_Forall2, Forall2_fmap_l. eapply Forall2_impl; [exact Hstrs|].
    intros tr s Hs. simpl. by rewrite Hs. }
  rewrite Hjoin. simpl. unfold spec.request_ids. rewrite <- Homap. reflexivity.
Qed.




(** * Further properties *)

(** ** Strings *)





(** ** URL encoding *)





Lemma append_String (c : ascii) (s t : string) :
  String c s +:+ t = String c (s +:+ t).
Proof. reflexivity. Qed.

Lemma append_empty (t : string) : "" +:+ t = t.
Proof. reflexivity. Qed.

Lemma quote_byte_cases (c : ascii) :
  (py.quote_byte c = String c "" /\ c <> "%"%char)
  \/ exists hi lo : ascii,
       py.quote_byte c = String "%" (String hi (String lo ""))
       /\ c = ascii_of_nat
                (16 * (if (nat_of_ascii hi <? 58)%nat then nat_of_ascii hi - 48
                       else nat_of_ascii hi - 55)
                 + (if (nat_of_ascii lo <? 58)%nat then nat_of_ascii lo - 48
                    else nat_of_ascii lo - 55)).
Proof.
  destruct c as [[] [] [] [] [] [] [] []];
    first [ by left | right; eexists _, _; split; reflexivity ].
Qed.

Lemma quote_inj (s1 s2 : string) : py.quote s1 = py.quote s2 -> s1 = s2.
Proof.
  revert s2. induction s1 as [|c1 s1 IH]; intros [|c2 s2] H; cbn [py.quote] in H.
  - reflexivity.
  - destruct (quote_byte_cases c2) as [[E _]|(hi & lo & E & _)];
      rewrite E in H; discriminate.
  - destruct (quote_byte_cases c1) as [[E _]|(hi & lo & E & _)];
      rewrite E in H; discriminate.
  - destruct (quote_byte_cases c1) as [[E1 N1]|(h1 & l1 & E1 & D1)],
             (quote_byte_cases c2) as [[E2 N2]|(h2 & l2 & E2 & D2)];
      rewrite E1, E2 in H; rewrite ?append_String, ?append_empty in H.
    + injection H as -> H. f_equal. by apply IH.
    + injection H as -> H. done.
    + injection H as <- H. done.
    + injection H as -> -> H. subst c1 c2. f_equal. by apply IH.
Qed.

(** X3: [quote] loses nothing: two strings with the same encoding are the
    same string, so two identities get the same query only if their
    token strings agree. *)
Theorem quote_injective :
  (forall s1 s2 : string, py.quote s1 = py.quote s2 -> s1 = s2)
  /\ (forall t1 t2 : TrackInfo.t,
         TrackInfo.genQuery t1 = TrackInfo.genQuery t2 ->
         py.join " " (spec.tokens t1) = py.join " " (spec.tokens t2)).
Proof.
  split; [exact quote_inj|].
  intros t1 t2 H. rewrite !genQuery_tokens in H. by apply quote_inj.
Qed.

Lemma quote_injective_witness :
  py.join " " (spec.tokens (TrackInfo.mk (Some "Foo") (Some "Bar") None None None None))
  = py.join " " (spec.tokens (TrackInfo.mk (Some "Foo") (Some "Bar") None None
                                (Some "id") (Some "href"))).
Proof.
  apply (proj2 quote_injective). reflexivity.
Defined.

(** ** Query construction, continued *)

Lemma quote_empty_iff (s : string) : py.quote s = "" <-> s = "".
Proof.
  split; [|by intros ->].
  intros H. by apply quote_inj.
Qed.

Lemma join_cons_nonempty (c : ascii) (s : string) (l : list string) :
  py.join " " (String c s :: l) <> "".
Proof. destruct l; simpl; discriminate. Qed.

(** X4: the query is empty exactly when no field of the identity has a
    value (each of name, artist, album and year is [None] or, for Python,
    false); as soon as one field has a value the query is not empty. *)
Theorem genQuery_empty_iff (ti : TrackInfo.t) :
  TrackInfo.genQuery ti = "" <-> behaviour.no_field ti.
Proof.
  rewrite genQuery_tokens, quote_empty_iff.
  destruct ti as [n a al y i h].
  unfold behaviour.no_field, spec.tokens, spec.token, spec.year_token.
  cbn [TrackInfo.name TrackInfo.artist TrackInfo.album TrackInfo.year].
  destruct n as [[|? ?]|], a as [[|? ?]|], al as [[|? ?]|],
           y as [[z|[|? ?]]|];
    cbn [py.truthy_str py.truthy String.eqb negb app];
    try destruct (Z.eqb_spec z 0);
    cbn [negb app];
    (split;
     [ intros H; first [ by apply join_cons_nonempty in H | tauto ]
     | intros (H1 & H2 & H3 & H4); first [ discriminate | reflexivity ] ]).
Qed.

(** ** Failure of a traversal *)

Lemma mapM_r_Raise {A B} (f : A -> result B) (l : list A) (e : exn) :
  Forall (fun x => f x = Raise e \/ exists y, f x = Ok y) l ->
  Exists (fun x => f x = Raise e) l ->
  mapM_r f l = Raise e.
Proof.
  induction 1 as [|x l Hx Hl IH]; intros Hex; [by inversion Hex|].
  simpl. destruct Hx as [->|[y Hy]]; [reflexivity|].
  rewrite Hy. simpl.
  inversion Hex as [? ? Hx'|? ? Hl']; subst; [congruence|].
  by rewrite IH.
Qed.

(** ** Audio features, continued *)

(** X5: when every reference is in the store but one of the tracks has
    no catalog id, [getAudioFeatures] raises TypeError (at the join of the
    ids, before the request and before any track is touched). *)
Theorem getAudioFeatures_missing_id (self : PlaylistBuilder.t)
    (tracks : list PlaylistBuilder.ref) (h : PlaylistBuilder.store) :
  (forall r, r ∈ tracks -> is_Some (h !! r)) ->
  (exists r tr, r ∈ tracks /\ h !! r = Some tr /\ PlaylistBuilder.track_id tr = None) ->
  PlaylistBuilder.getAudioFeatures self tracks h = Raise TypeError.
Proof.
  intros Hvalid (r & tr & Hr & Htr & Hid).
  unfold PlaylistBuilder.getAudioFeatures.
  assert (Hobjs : exists objs, Forall2 (fun r tr => h !! r = Some tr) tracks objs).
  { apply lookups_exist, Forall_forall. exact Hvalid. }
  destruct Hobjs as [objs Hobjs].
  assert (Hderef : mapM_r (PlaylistBuilder.deref h) tracks = Ok objs).
  { apply mapM_r_Forall2. eapply Forall2_impl; [exact Hobjs|].
    intros r' tr' Hr'. unfold PlaylistBuilder.deref. by rewrite Hr'. }
  rewrite Hderef. simpl. unfold PlaylistBuilder.join_ids.
  rewrite (mapM_r_Raise _ _ TypeError); [reflexivity| |].
  - apply Forall_forall. intros [s|] _; [right; by eexists | by left].
  - apply Exists_exists. exists None. split; [|reflexivity].
    apply list_elem_of_fmap. exists tr. split; [by rewrite Hid|].
    apply list_elem_of_lookup_1 in Hr as [i Hi].
    destruct (Forall2_lookup_l _ _ _ _ _ Hobjs Hi) as (tr' & Htr' & Hlook).
    apply list_elem_of_lookup_2 with i. congruence.
Qed.

Lemma getAudioFeatures_missing_id_witness :
  PlaylistBuilder.getAudioFeatures scenario.builder [0%nat; 1%nat]
    [scenario.bare (Some "A"); scenario.bare None] = Raise TypeError.
Proof.
  apply getAudioFeatures_missing_id.
  - intros r Hr. apply elem_of_cons in Hr as [->|Hr];
      [|apply elem_of_cons in Hr as [->|Hr]; [|by apply elem_of_nil in Hr]];
      by eexists.
  - exists 1%nat, (scenario.bare None).
    split; [apply list_elem_of_lookup_2 with 1%nat; reflexivity|].
    split; reflexivity.
Defined.

Lemma assign_features_cons (r0 : nat) (tracks : list nat)
    (f0 : AudioFeatures.kwargs) (features : list AudioFeatures.kwargs)
    (h : list Track.t) :
  PlaylistBuilder.assign_features (r0 :: tracks) (f0 :: features) h
  = PlaylistBuilder.assign_features tracks features
      (alter (Track.set_audio_features (AudioFeatures.init f0)) r0 h).
Proof. reflexivity. Qed.




(** X7: response records beyond the number of tracks are never looked at:
    two services whose audio-features answers agree on the first
    [len(tracks)] records lead to the same result of [getAudioFeatures]. *)
Theorem getAudioFeatures_surplus_ignored (self1 self2 : PlaylistBuilder.t)
    (tracks : list PlaylistBuilder.ref) (h : PlaylistBuilder.store) :
  (forall ids,
      take (length tracks) (api.audio_features (PlaylistBuilder.session self1) ids)
      = take (length tracks) (api.audio_features (PlaylistBuilder.session self2) ids)) ->
  PlaylistBuilder.getAudioFeatures self1 tracks h
  = PlaylistBuilder.getAudioFeatures self2 tracks h.
Proof.
  intros Hagree. unfold PlaylistBuilder.getAudioFeatures.
  destruct (mapM_r (PlaylistBuilder.deref h) tracks) as [objs|e]; [|reflexivity].
  simpl. destruct (PlaylistBuilder.join_ids _) as [ids|e]; [|reflexivity].
  simpl. do 2 f_equal. unfold PlaylistBuilder.assign_features.
  rewrite <- (zip_with_take_r _ tracks
                (api.audio_features (PlaylistBuilder.session self1) ids)).
  rewrite <- (zip_with_take_r _ tracks
                (api.audio_features (PlaylistBuilder.session self2) ids)).
  by rewrite Hagree.
Qed.

Lemma getAudioFeatures_surplus_ignored_witness :
  PlaylistBuilder.getAudioFeatures behaviour.long_builder [0%nat]
    [scenario.bare (Some "A"); scenario.bare (Some "B")]
  = PlaylistBuilder.getAudioFeatures scenario.short_builder [0%nat]
      [scenario.bare (Some "A"); scenario.bare (Some "B")].
Proof.
  apply getAudioFeatures_surplus_ignored.
  intros ids. reflexivity.
Defined.

(** ** Missing features and missing numbers *)

(** X8: as soon as one track of the list has no audio features,
    [genAverageModel] and [getBestSeeds] raise AttributeError, whatever
    the other tracks, the target and the limit are. *)
Theorem features_missing_AttributeError (tracks : list Track.t) :
  Exists (fun tr => Track.audio_features tr = None) tracks ->
  PlaylistBuilder.genAverageModel tracks = Raise AttributeError
  /\ forall (np : numpy.t) (target : AudioModel.t) (limit : Z),
       PlaylistBuilder.getBestSeeds np tracks target limit = Raise AttributeError.
Proof.
  intros Hex.
  assert (Hrows : PlaylistBuilder.feature_rows tracks = Raise AttributeError).
  { apply mapM_r_Raise.
    - apply Forall_forall. intros tr _.
      destruct (Track.audio_features tr); [right; by eexists | by left].
    - eapply Exists_impl; [exact Hex|]. intros tr Htr. simpl in *. by rewrite Htr. }
  split.
  - unfold PlaylistBuilder.genAverageModel. by rewrite Hrows.
  - intros np target limit.
    unfold PlaylistBuilder.getBestSeeds, PlaylistBuilder.seed_indices.
    by rewrite Hrows.
Qed.

Lemma features_missing_AttributeError_witness :
  PlaylistBuilder.genAverageModel [scenario.t0; scenario.bare (Some "x")]
  = Raise AttributeError.
Proof.
  apply (features_missing_AttributeError [scenario.t0; scenario.bare (Some "x")]).
  apply Exists_cons_tl, Exists_cons_hd. reflexivity.
Defined.

(** The row NumPy sees for a track, whether or not all its dimensions are
    numbers. *)
Lemma feature_rows_present (tracks : list Track.t) :
  Forall (fun tr => is_Some (Track.audio_features tr)) tracks ->
  exists rows,
    PlaylistBuilder.feature_rows tracks = Ok rows
    /\ Forall2 (fun tr row =>
                  exists af, Track.audio_features tr = Some af
                             /\ row = AudioModel.getNumpyVector (AudioFeatures.model af))
         tracks rows.
Proof.
  induction 1 as [|tr tracks [af Haf] _ (rows & Hrows & Hall)].
  - exists []. split; [reflexivity | constructor].
  - exists (AudioModel.getNumpyVector (AudioFeatures.model af) :: rows).
    unfold PlaylistBuilder.feature_rows in *. simpl. rewrite Haf. simpl.
    rewrite Hrows. split; [reflexivity|]. constructor; [by exists af | done].
Qed.

Lemma not_vector_None (m : AudioModel.t) :
  ~ spec.is_vector m ->
  exists j, (j < 8)%nat /\ AudioModel.getNumpyVector m !! j = Some None.
Proof.
  intros Hnot. apply not_Forall_Exists in Hnot; [|intros d; apply _].
  apply Exists_exists in Hnot as (d & Hd & Hnone).
  apply list_elem_of_lookup_1 in Hd as [j Hj].
  exists j. split; [by apply lookup_lt_Some in Hj|].
  change (AudioModel.getNumpyVector m) with ((fun d => d m) <$> spec.dimensions).
  rewrite list_lookup_fmap, Hj. simpl. f_equal.
  simpl in Hnone. by apply eq_None_not_Some.
Qed.

Lemma add_reduce_cases (col : list (option Q)) :
  numpy.add_reduce col = Raise TypeError \/ exists s, numpy.add_reduce col = Ok s.
Proof.
  induction col as [|[x|] col IH]; simpl; [right; by eexists | | by left].
  destruct IH as [->|[s ->]]; [by left | right; by eexists].
Qed.

Lemma add_reduce_None (col : list (option Q)) :
  None ∈ col -> numpy.add_reduce col = Raise TypeError.
Proof.
  induction col as [|[x|] col IH]; intros Hin.
  - by apply elem_of_nil in Hin.
  - apply elem_of_cons in Hin as [?|Hin]; [done|]. simpl. by rewrite IH.
  - reflexivity.
Qed.

(** X9: for a non-empty list of tracks that all have audio features, if
    some dimension of some track is [None] then [genAverageModel] raises
    TypeError: no partial average is returned. *)
Theorem genAverageModel_None_dimension (tracks : list Track.t) :
  Forall (fun tr => is_Some (Track.audio_features tr)) tracks ->
  Exists (fun tr => exists af, Track.audio_features tr = Some af
                               /\ ~ spec.is_vector (AudioFeatures.model af)) tracks ->
  PlaylistBuilder.genAverageModel tracks = Raise TypeError.
Proof.
  intros Hall Hex.
  destruct (feature_rows_present tracks Hall) as (rows & Hrows & Hrel).
  unfold PlaylistBuilder.genAverageModel. rewrite Hrows. simpl.
  apply Exists_exists in Hex as (tr & Htr & af & Haf & Hnot).
  apply list_elem_of_lookup_1 in Htr as [p Hp].
  destruct (Forall2_lookup_l _ _ _ _ _ Hrel Hp) as (row & Hrow & af' & Haf' & ->).
  assert (af' = af) as -> by congruence.
  destruct (not_vector_None _ Hnot) as (j & Hj & Hnone).
  assert (Hmat : numpy.matrix rows = rows).
  { destruct rows; [by rewrite lookup_nil in Hrow | reflexivity]. }
  assert (Hcols : numpy.ncols rows = 8%nat).
  { destruct Hrel as [|tr0 row0 ? ? (af0 & _ & ->) _];
      [by rewrite lookup_nil in Hp | reflexivity]. }
  rewrite Hmat. unfold numpy.mean_axis0. rewrite Hcols.
  rewrite (mapM_r_Raise _ _ TypeError); [reflexivity| |].
  - apply Forall_forall. intros k _.
    destruct (add_reduce_cases (numpy.column k rows)) as [->|[s ->]];
      [by left | right; by eexists].
  - apply Exists_exists. exists j. split; [apply elem_of_seq; lia|].
    rewrite add_reduce_None; [reflexivity|].
    unfold numpy.column. apply list_elem_of_fmap.
    exists (AudioModel.getNumpyVector (AudioFeatures.model af)).
    split; [by rewrite Hnone | by apply list_elem_of_lookup_2 with p].
Qed.

Lemma genAverageModel_None_dimension_witness :
  PlaylistBuilder.genAverageModel
    [scenario.t0;
     Track.mk (Some (AudioFeatures.init
                       (AudioFeatures.mk_kwargs (Some 1%Q) None None None None None
                          None None None None None None None None None None None
                          None None)))
       (scenario.info "u")]
  = Raise TypeError.
Proof.
  apply genAverageModel_None_dimension.
  - repeat constructor; by eexists.
  - apply Exists_cons_tl, Exists_cons_hd. eexists. split; [reflexivity|].
    intros Hvec. apply Forall_cons in Hvec as [_ Hvec].
    apply Forall_cons in Hvec as [[x Hx] _]. discriminate.
Defined.

Lemma mapM_r_cases {A B} (f : A -> result B) (l : list A) (e : exn) :
  Forall (fun x => f x = Raise e \/ exists y, f x = Ok y) l ->
  mapM_r f l = Raise e \/ exists ys, mapM_r f l = Ok ys.
Proof.
  induction 1 as [|x l Hx _ IH]; simpl; [right; by eexists|].
  destruct Hx as [->|[y ->]]; [by left|]. simpl.
  destruct IH as [->|[ys ->]]; [by left | right; by eexists].
Qed.

Lemma sub_elt_cases (xy : option Q * option Q) :
  numpy.sub_elt xy = Raise TypeError \/ exists d, numpy.sub_elt xy = Ok d.
Proof. destruct xy as [[x|] [y|]]; simpl; [right; by eexists | by left..]. Qed.

Lemma getNumpyVector_length (m : AudioModel.t) :
  length (AudioModel.getNumpyVector m) = 8%nat.
Proof. reflexivity. Qed.

Lemma sub_row_None (m target : AudioModel.t) :
  ~ spec.is_vector m \/ ~ spec.is_vector target ->
  mapM_r numpy.sub_elt
    (zip (AudioModel.getNumpyVector m) (AudioModel.getNumpyVector target))
  = Raise TypeError.
Proof.
  intros Hnot. apply mapM_r_Raise.
  - apply Forall_forall. intros xy _. apply sub_elt_cases.
  - apply Exists_exists.
    destruct Hnot as [Hnot|Hnot];
      destruct (not_vector_None _ Hnot) as (j & Hj & Hnone).
    + destruct (lookup_lt_is_Some_2 (AudioModel.getNumpyVector target) j) as [y Hy];
        [by rewrite getNumpyVector_length|].
      exists (None, y). split; [|reflexivity].
      apply list_elem_of_lookup_2 with j.
      by rewrite lookup_zip_with, Hnone, Hy.
    + destruct (lookup_lt_is_Some_2 (AudioModel.getNumpyVector m) j) as [x Hx];
        [by rewrite getNumpyVector_length|].
      exists (x, None). split; [|by destruct x].
      apply list_elem_of_lookup_2 with j.
      by rewrite lookup_zip_with, Hx, Hnone.
Qed.

(** X10: for a non-empty list of tracks that all have audio features, if
    some dimension of some track or of the target is [None], then
    [getBestSeeds] raises TypeError for every limit; in particular the
    all-[None] model that [genAverageModel] returns for the empty list is
    no usable target. *)
Theorem getBestSeeds_None_dimension (np : numpy.t) (tracks : list Track.t)
    (target : AudioModel.t) (limit : Z) :
  tracks <> [] ->
  Forall (fun tr => is_Some (Track.audio_features tr)) tracks ->
  Exists (fun tr => exists af, Track.audio_features tr = Some af
                               /\ ~ spec.is_vector (AudioFeatures.model af)) tracks
  \/ ~ spec.is_vector target ->
  PlaylistBuilder.getBestSeeds np tracks target limit = Raise TypeError.
Proof.
  intros Hne Hall Hbad.
  destruct (feature_rows_present tracks Hall) as (rows & Hrows & Hrel).
  unfold PlaylistBuilder.getBestSeeds, PlaylistBuilder.seed_indices.
  rewrite Hrows. simpl.
  assert (Hmat : numpy.matrix rows = rows).
  { destruct Hrel; [done | reflexivity]. }
  rewrite Hmat. unfold numpy.sub.
  rewrite (mapM_r_Raise _ _ TypeError); [reflexivity| |].
  - apply Forall_forall. intros row Hrow.
    apply list_elem_of_lookup_1 in Hrow as [p Hp].
    destruct (Forall2_lookup_r _ _ _ _ _ Hrel Hp) as (tr & _ & af & _ & ->).
    change (mapM_r numpy.sub_elt
              (zip (AudioModel.getNumpyVector (AudioFeatures.model af))
                 (AudioModel.getNumpyVector target)) = Raise TypeError
            \/ exists y, mapM_r numpy.sub_elt
                           (zip (AudioModel.getNumpyVector (AudioFeatures.model af))
                              (AudioModel.getNumpyVector target)) = Ok y).
    apply mapM_r_cases, Forall_forall. intros xy _. apply sub_elt_cases.
  - apply Exists_exists. destruct Hbad as [Hex|Htarget].
    + apply Exists_exists in Hex as (tr & Htr & af & Haf & Hnot).
      apply list_elem_of_lookup_1 in Htr as [p Hp].
      destruct (Forall2_lookup_l _ _ _ _ _ Hrel Hp) as (row & Hrow & af' & Haf' & ->).
      assert (af' = af) as -> by congruence.
      exists (AudioModel.getNumpyVector (AudioFeatures.model af)).
      split; [by apply list_elem_of_lookup_2 with p|].
      apply (sub_row_None (AudioFeatures.model af) target). by left.
    + destruct Hrel as [|tr row ? ? (af & _ & ->) _]; [done|].
      exists (AudioModel.getNumpyVector (AudioFeatures.model af)).
      split; [by left|].
      apply (sub_row_None (AudioFeatures.model af) target). by right.
Qed.

Lemma getBestSeeds_None_dimension_witness :
  PlaylistBuilder.getBestSeeds sorts.np_stable [scenario.t0; scenario.t1]
    (AudioModel.mk None None None None None None None None) 5
  = Raise TypeError.
Proof.
  apply getBestSeeds_None_dimension.
  - discriminate.
  - repeat constructor; by eexists.
  - right. intros Hvec. apply Forall_cons in Hvec as [[x Hx] _]. discriminate.
Defined.

(** ** Seed selection, continued *)

Lemma lookups_functional {A} (l : list A) (idx : list nat) (o1 o2 : list A) :
  Forall2 (fun i x => l !! i = Some x) idx o1 ->
  Forall2 (fun i x => l !! i = Some x) idx o2 ->
  o1 = o2.
Proof.
  intros H1. revert o2. induction H1 as [|i x idx o1 Hx _ IH]; intros o2 H2.
  - by inversion H2.
  - inversion H2 as [|? y ? o2' Hy H2']; subst. f_equal; [congruence | by apply IH].
Qed.


Lemma lookups_seq {A} (pre l : list A) :
  Forall2 (fun i x => (pre ++ l) !! i = Some x) (seq (length pre) (length l)) l.
Proof.
  revert pre. induction l as [|x l IH]; intros pre; simpl; [constructor|].
  constructor.
  - by rewrite list_lookup_middle.
  - specialize (IH (pre ++ [x])). rewrite length_app in IH. simpl in IH.
    rewrite <- app_assoc in IH. simpl in IH.
    by replace (S (length pre)) with (length pre + 1)%nat by lia.
Qed.



(** X12: a negative limit [-k] is a slice bound counted from the end: it
    makes [getBestSeeds] behave as with the limit [len(tracks) - k] (or 0
    when that is negative), so the [k] farthest tracks are dropped
    instead of none being returned. *)
Theorem getBestSeeds_negative_limit (np : numpy.t) (tracks : list Track.t)
    (target : AudioModel.t) (limit : Z) :
  numpy.contract np ->
  tracks <> [] ->
  Forall spec.has_vector tracks ->
  spec.is_vector target ->
  limit < 0 ->
  PlaylistBuilder.getBestSeeds np tracks target limit
  = PlaylistBuilder.getBestSeeds np tracks target
      (Z.max 0 (Z.of_nat (length tracks) + limit)).
Proof.
  intros Hnp Hne Hvec Htarget Hlimit.
  unfold PlaylistBuilder.getBestSeeds.
  rewrite !seed_indices_order by done.
  unfold py.slice_to. rewrite order_length by done.
  destruct (Z.ltb_spec limit 0); [|lia].
  destruct (Z.ltb_spec (Z.max 0 (Z.of_nat (length tracks) + limit)) 0); [lia|].
  reflexivity.
Qed.

Lemma getBestSeeds_negative_limit_witness :
  PlaylistBuilder.getBestSeeds sorts.np_stable
    [scenario.t0; scenario.t1; scenario.t2] scenario.target (-1)
  = PlaylistBuilder.getBestSeeds sorts.np_stable
      [scenario.t0; scenario.t1; scenario.t2] scenario.target 2.
Proof.
  apply (getBestSeeds_negative_limit sorts.np_stable
           [scenario.t0; scenario.t1; scenario.t2] scenario.target (-1)
           np_stable_contract ltac:(discriminate) scenario_tracks_have_vectors
           scenario_target_vector).
  lia.
Defined.

(** X13: raising the limit only appends: for limits [0 <= k <= k'] the
    seeds selected with limit [k] are the first seeds selected with limit
    [k'], in the same order. *)
Theorem getBestSeeds_monotone_in_limit (np : numpy.t) (tracks : list Track.t)
    (target : AudioModel.t) (k k' : Z) :
  numpy.contract np ->
  tracks <> [] ->
  Forall spec.has_vector tracks ->
  spec.is_vector target ->
  0 <= k <= k' ->
  exists out out',
    PlaylistBuilder.getBestSeeds np tracks target k = Ok out
    /\ PlaylistBuilder.getBestSeeds np tracks target k' = Ok out'
    /\ out `prefix_of` out'.
Proof.
  intros Hnp Hne Hvec Htarget Hk.
  destruct (seeds_selected np tracks target k Hnp Hne Hvec Htarget)
    as (n & out & Hslice & _ & Hout & Hall).
  destruct (seeds_selected np tracks target k' Hnp Hne Hvec Htarget)
    as (n' & out' & Hslice' & _ & Hout' & Hall').
  exists out, out'. split; [exact Hout|]. split; [exact Hout'|].
  rewrite <- Hslice, slice_to_nonneg in Hall by lia.
  rewrite <- Hslice', slice_to_nonneg in Hall' by lia.
  apply (Forall2_take _ _ _ (Z.to_nat k)) in Hall'.
  rewrite take_take in Hall'.
  replace (Z.to_nat k `min` Z.to_nat k')%nat with (Z.to_nat k) in Hall' by lia.
  rewrite (lookups_functional _ _ _ _ Hall Hall').
  apply prefix_take.
Qed.

Lemma getBestSeeds_monotone_in_limit_witness :
  exists out out',
    PlaylistBuilder.getBestSeeds sorts.np_stable
      [scenario.t0; scenario.t1; scenario.t2] scenario.target 1 = Ok out
    /\ PlaylistBuilder.getBestSeeds sorts.np_stable
         [scenario.t0; scenario.t1; scenario.t2] scenario.target 2 = Ok out'
    /\ out `prefix_of` out'.
Proof.
  apply (getBestSeeds_monotone_in_limit sorts.np_stable
           [scenario.t0; scenario.t1; scenario.t2] scenario.target 1 2
           np_stable_contract ltac:(discriminate) scenario_tracks_have_vectors
           scenario_target_vector).
  lia.
Defined.

(** ** Resolve and enrich *)

Lemma track_of_id (o : api.track_object) (tr : Track.t) :
  PlaylistBuilder.track_of o = Ok tr ->
  PlaylistBuilder.track_id tr = Some (api.track_id o)
  /\ Track.audio_features tr = None.
Proof.
  unfold PlaylistBuilder.track_of.
  destruct (api.track_artists o); [discriminate|]. by intros [= <-].
Qed.

Lemma track_of_artists (o : api.track_object) :
  api.track_artists o <> [] -> exists tr, PlaylistBuilder.track_of o = Ok tr.
Proof.
  unfold PlaylistBuilder.track_of.
  destruct (api.track_artists o); [done | by eexists].
Qed.

Lemma search_all (self : PlaylistBuilder.t) (tracks : list Track.t) :
  Forall (fun o => api.track_artists o <> [])
    (behaviour.first_items (PlaylistBuilder.session self) tracks) ->
  exists found h,
    mapM_r (PlaylistBuilder.searchTrack self) tracks = Ok found
    /\ omap (fun x => x) found = h
    /\ Forall2 (fun o tr => PlaylistBuilder.track_of o = Ok tr)
         (behaviour.first_items (PlaylistBuilder.session self) tracks) h.
Proof.
  induction tracks as [|t tracks IH]; intros Hall.
  - exists [], []. by repeat split.
  - unfold behaviour.first_items in *. cbn [omap list_omap] in *.
    destruct (api.search (PlaylistBuilder.session self)
                (TrackInfo.genQuery (Track.track_info t))) as [|o rest] eqn:Hsearch;
      cbn [head] in *.
    + destruct (IH Hall) as (found & h & Hfound & Hh & Hrel).
      exists (None :: found), h. cbn [mapM_r].
      assert (Hst : PlaylistBuilder.searchTrack self t = Ok None)
        by (unfold PlaylistBuilder.searchTrack; by rewrite Hsearch).
      rewrite Hst. simpl. rewrite Hfound. by repeat split.
    + apply Forall_cons in Hall as [Ho Hall].
      destruct (IH Hall) as (found & h & Hfound & Hh & Hrel).
      destruct (track_of_artists o Ho) as [tr Htr].
      exists (Some tr :: found), (tr :: h). cbn [mapM_r].
      assert (Hst : PlaylistBuilder.searchTrack self t = Ok (Some tr))
        by (unfold PlaylistBuilder.searchTrack; by rewrite Hsearch, Htr).
      rewrite Hst. simpl.
      rewrite Hfound. split; [reflexivity|]. split; [by rewrite <- Hh|].
      by constructor.
Qed.

Lemma omap_lookup_seq {A B} (g : A -> option B) (pre l : list A) :
  omap (fun r => x ← (pre ++ l) !! r; g x) (seq (length pre) (length l)) = omap g l.
Proof.
  revert pre. induction l as [|x l IH]; intros pre; [reflexivity|].
  cbn [length seq omap list_omap]. rewrite list_lookup_middle by done. simpl.
  specialize (IH (pre ++ [x])). rewrite length_app, <- app_assoc in IH. simpl in IH.
  replace (length pre + 1)%nat with (S (length pre)) in IH by lia.
  by rewrite IH.
Qed.

Lemma deref_seq (pre l : list Track.t) :
  mapM_r (PlaylistBuilder.deref (pre ++ l)) (seq (length pre) (length l)) = Ok l.
Proof.
  apply mapM_r_Forall2. eapply Forall2_impl; [apply lookups_seq|].
  intros r tr Hr. unfold PlaylistBuilder.deref. by rewrite Hr.
Qed.

Lemma attach_length (tracks : list Track.t) (features : list AudioFeatures.kwargs) :
  length (behaviour.attach tracks features) = length tracks.
Proof.
  revert features. induction tracks as [|tr tracks IH]; intros [|f features]; simpl;
    by rewrite ?IH.
Qed.

Lemma assign_features_seq (pre l : list Track.t) (features : list AudioFeatures.kwargs) :
  PlaylistBuilder.assign_features (seq (length pre) (length l)) features (pre ++ l)
  = pre ++ behaviour.attach l features.
Proof.
  revert pre features. induction l as [|x l IH]; intros pre features; [reflexivity|].
  destruct features as [|f features]; [reflexivity|].
  cbn [length seq]. rewrite assign_features_cons.
  replace (length pre) with (length pre + 0)%nat at 2 by lia.
  rewrite alter_app_r. cbn [alter list_alter behaviour.attach].
  specialize (IH (pre ++ [Track.set_audio_features (AudioFeatures.init f) x]) features).
  rewrite length_app, <- app_assoc in IH. simpl in IH.
  replace (length pre + 1)%nat with (S (length pre)) in IH by lia.
  rewrite IH. by rewrite <- app_assoc.
Qed.

Lemma omap_track_id (items : list api.track_object) (h : list Track.t) :
  Forall2 (fun o tr => PlaylistBuilder.track_of o = Ok tr) items h ->
  omap PlaylistBuilder.track_id h = api.track_id <$> items.
Proof.
  induction 1 as [|o tr items h Htr _ IH]; [reflexivity|].
  cbn [omap list_omap fmap list_fmap].
  destruct (track_of_id _ _ Htr) as [-> _]. simpl. by rewrite IH.
Qed.

Lemma request_ids_seq (h : list Track.t) :
  spec.request_ids h (seq 0 (length h))
  = py.join "," (omap PlaylistBuilder.track_id h).
Proof.
  unfold spec.request_ids. f_equal.
  exact (omap_lookup_seq PlaylistBuilder.track_id [] h).
Qed.

Lemma assign_features_all (h : list Track.t) (features : list AudioFeatures.kwargs) :
  PlaylistBuilder.assign_features (seq 0 (length h)) features h
  = behaviour.attach h features.
Proof. exact (assign_features_seq [] h features). Qed.

Lemma deref_all (h : list Track.t) :
  mapM_r (PlaylistBuilder.deref h) (seq 0 (length h)) = Ok h.
Proof. exact (deref_seq [] h). Qed.

Lemma enriched_resolved (self : PlaylistBuilder.t) :
  Forall (fun o => api.track_artists o <> []) (behaviour.resolved self) ->
  exists h,
    Forall2 (fun o tr => PlaylistBuilder.track_of o = Ok tr) (behaviour.resolved self) h
    /\ PlaylistBuilder.enriched self
       = Ok (behaviour.attach h (behaviour.resolved_features self)).
Proof.
  intros Hall.
  destruct (search_all self (PlaylistBuilder.tracks self) Hall)
    as (found & h & Hfound & Hh & Hrel).
  exists h. split; [exact Hrel|].
  unfold PlaylistBuilder.enriched. rewrite Hfound. simpl. rewrite Hh.
  rewrite request_ok.
  - simpl. rewrite request_ids_seq, (omap_track_id _ _ Hrel), assign_features_all.
    fold (behaviour.resolved self). fold (behaviour.resolved_features self).
    rewrite <- (attach_length h (behaviour.resolved_features self)).
    apply deref_all.
  - intros r Hr. apply elem_of_seq in Hr.
    destruct (lookup_lt_is_Some_2 h r) as [tr Htr]; [lia|].
    destruct (Forall2_lookup_r _ _ _ _ _ Hrel Htr) as (o & _ & Ho).
    exists tr, (api.track_id o). split; [done|]. by apply track_of_id in Ho as [? _].
Qed.



(** ** Recommendations *)

Lemma track_of_all (items : list api.track_object) :
  Forall (fun o => api.track_artists o <> []) items ->
  exists out, Forall2 (fun o tr => PlaylistBuilder.track_of o = Ok tr) items out.
Proof.
  induction 1 as [|o items Ho _ [out IH]]; [by exists []|].
  destruct (track_of_artists o Ho) as [tr Htr].
  exists (tr :: out). by constructor.
Qed.

Lemma join_ids_Some (ids : list (option string)) :
  Forall is_Some ids -> exists s, PlaylistBuilder.join_ids ids = Ok s.
Proof.
  intros Hall. unfold PlaylistBuilder.join_ids.
  assert (Hstrs : exists strs, Forall2 (fun i s => i = Some s) ids strs).
  { induction Hall as [|i ids [s ->] _ [strs IH]]; [by exists []|].
    exists (s :: strs). by constructor. }
  destruct Hstrs as [strs Hstrs].
  assert (Hmap : mapM_r (fun i : option string =>
                           match i with Some s => Ok s | None => Raise TypeError end)
                   ids = Ok strs).
  { apply mapM_r_Forall2. eapply Forall2_impl; [exact Hstrs|]. by intros i s ->. }
  rewrite Hmap. by eexists.
Qed.

Lemma join_ids_None (ids : list (option string)) :
  None ∈ ids -> PlaylistBuilder.join_ids ids = Raise TypeError.
Proof.
  intros Hin. unfold PlaylistBuilder.join_ids.
  rewrite (mapM_r_Raise _ _ TypeError); [reflexivity| |].
  - apply Forall_forall. intros [s|] _; [right; by eexists | by left].
  - apply Exists_exists. by exists None.
Qed.

(** X15: [getModelRecommendations] raises TypeError when a seed has no
    catalog id.  Otherwise it returns one new track per item of the
    response, in the order of the response and without cutting it to
    [limit], each with the item's id and no audio features; unless an
    item names no artist, in which case IndexError is raised. *)
Theorem getModelRecommendations_one_track_per_item (self : PlaylistBuilder.t)
    (model : AudioModel.t) (seed_tracks : list Track.t) (limit : Z) :
  (Exists (fun tr => PlaylistBuilder.track_id tr = None) seed_tracks ->
   PlaylistBuilder.getModelRecommendations self model seed_tracks limit
   = Raise TypeError)
  /\ (forall ids : string,
         PlaylistBuilder.join_ids (PlaylistBuilder.track_id <$> seed_tracks) = Ok ids ->
         let response := api.recommendations (PlaylistBuilder.session self)
                           ids limit model in
         (Forall (fun o => api.track_artists o <> []) response ->
          exists out,
            PlaylistBuilder.getModelRecommendations self model seed_tracks limit = Ok out
            /\ length out = length response
            /\ PlaylistBuilder.track_id <$> out = (fun o => Some (api.track_id o)) <$> response
            /\ Forall (fun tr => Track.audio_features tr = None) out)
         /\ (Exists (fun o => api.track_artists o = []) response ->
             PlaylistBuilder.getModelRecommendations self model seed_tracks limit
             = Raise IndexError)).
Proof.
  unfold PlaylistBuilder.getModelRecommendations. split.
  - intros Hex. rewrite join_ids_None; [reflexivity|].
    apply Exists_exists in Hex as (tr & Htr & Hid).
    apply list_elem_of_fmap. exists tr. by rewrite Hid.
  - intros ids Hids. rewrite Hids. simpl.
    set (response := api.recommendations (PlaylistBuilder.session self) ids limit model).
    split.
    + intros Hall. destruct (track_of_all response Hall) as [out Hout].
      exists out. split; [by apply mapM_r_Forall2|].
      split; [symmetry; by apply Forall2_length in Hout|].
      clear Hall. induction Hout as [|o tr items out Htr _ (IH1 & IH2)];
        [by split|].
      destruct (track_of_id _ _ Htr) as [Hid Hnone].
      split; [cbn [fmap list_fmap]; by rewrite Hid, IH1 | by constructor].
    + intros Hex. apply mapM_r_Raise.
      * apply Forall_forall. intros o _. unfold PlaylistBuilder.track_of.
        destruct (api.track_artists o); [by left | right; by eexists].
      * eapply Exists_impl; [exact Hex|]. intros o Ho. simpl in *.
        unfold PlaylistBuilder.track_of. by rewrite Ho.
Qed.

Lemma getModelRecommendations_one_track_per_item_witness :
  exists out,
    PlaylistBuilder.getModelRecommendations scenario.builder scenario.target
      [scenario.t0; scenario.t1] 3 = Ok out
    /\ length out = 7%nat.
Proof.
  destruct (proj1 (proj2 (getModelRecommendations_one_track_per_item scenario.builder
                            scenario.target [scenario.t0; scenario.t1] 3)
                     "t0,t1" eq_refl))
    as (out & Hout & Hlen & _).
  - repeat constructor; discriminate.
  - exists out. split; [exact Hout | exact Hlen].
Defined.

(** ** Deduplication, continued *)

Lemma filter_unchanged {A} (P : A -> Prop) `{forall x, Decision (P x)} (l : list A) :
  filter P l = l <-> Forall P l.
Proof.
  induction l as [|x l IH].
  - split; [constructor | reflexivity].
  - rewrite filter_cons. destruct (decide (P x)) as [Hx|Hx].
    + split.
      * intros [= Heq]. constructor; [done | by apply IH].
      * intros Hall. apply Forall_cons in Hall as [_ Hall]. f_equal. by apply IH.
    + split.
      * intros Heq. pose proof (length_filter P l) as Hlen.
        rewrite Heq in Hlen. simpl in Hlen. lia.
      * intros Hall. by apply Forall_cons in Hall as [? _].
Qed.

(** X16: the deduplication step only ever removes tracks whose id is an
    id of the working list: its result is the recommendation list with
    some tracks left out, in the same order, and it is the recommendation
    list itself exactly when no recommended id is an id of the working
    list.  A track recommended twice is therefore returned twice. *)
Theorem deduplicate_keeps_order_and_repeats (recs tracks : list Track.t) :
  PlaylistBuilder.deduplicate recs tracks `sublist_of` recs
  /\ (PlaylistBuilder.deduplicate recs tracks = recs
      <-> forall tr, tr ∈ recs ->
            PlaylistBuilder.track_id tr ∉ PlaylistBuilder.track_id <$> tracks)
  /\ (forall tr, PlaylistBuilder.track_id tr ∉ PlaylistBuilder.track_id <$> tracks ->
        PlaylistBuilder.deduplicate (tr :: tr :: recs) tracks
        = tr :: tr :: PlaylistBuilder.deduplicate recs tracks).
Proof.
  unfold PlaylistBuilder.deduplicate. split; [apply sublist_filter|]. split.
  - rewrite filter_unchanged. apply Forall_forall.
  - intros tr Htr. rewrite !filter_cons. by rewrite !decide_True.
Qed.

Lemma deduplicate_keeps_order_and_repeats_witness :
  PlaylistBuilder.deduplicate [scenario.t2; scenario.t2] [scenario.t0; scenario.t1]
  = [scenario.t2; scenario.t2].
Proof.
  apply (proj1 (proj2 (deduplicate_keeps_order_and_repeats
                         [scenario.t2; scenario.t2] [scenario.t0; scenario.t1]))).
  intros tr Htr.
  assert (tr = scenario.t2) as ->.
  { apply elem_of_cons in Htr as [->|Htr]; [done|].
    apply elem_of_cons in Htr as [->|Htr]; [done | by apply elem_of_nil in Htr]. }
  intros Hin. apply elem_of_cons in Hin as [Hin|Hin]; [discriminate|].
  apply elem_of_cons in Hin as [Hin|Hin]; [discriminate | by apply elem_of_nil in Hin].
Defined.

(** ** The whole run *)

Lemma getBestSeeds_nil (np : numpy.t) (target : AudioModel.t) (limit : Z) :
  PlaylistBuilder.getBestSeeds np [] target limit = Raise ValueError.
Proof. reflexivity. Qed.

Lemma item_elem_of {A} (l : list A) (idx : list nat) (out : list A) :
  mapM_r (PlaylistBuilder.item l) idx = Ok out -> Forall (fun x => x ∈ l) out.
Proof.
  intros H. apply mapM_r_Forall2 in H.
  induction H as [|i x idx out Hx _ IH]; constructor; [|exact IH].
  unfold PlaylistBuilder.item in Hx.
  destruct (l !! i) as [y|] eqn:Hy; [|discriminate].
  injection Hx as <-. by apply list_elem_of_lookup_2 with i.
Qed.

(** X17: whenever [run] returns a list, the working list was not empty,
    at most five seeds were used and each of them is a track of the
    working list, and the returned tracks are tracks of the
    recommendation response in the order of that response: the first
    tracks of the deduplicated list, nothing reordered and nothing
    added. *)
Theorem run_returns_recommendations_in_order (np : numpy.t)
    (self : PlaylistBuilder.t) (limit : Z) (out : list Track.t) :
  PlaylistBuilder.run np self limit = Ok out ->
  exists (tracks : list Track.t) (model : AudioModel.t)
         (seeds recs : list Track.t),
    PlaylistBuilder.enriched self = Ok tracks
    /\ tracks <> []
    /\ PlaylistBuilder.genAverageModel tracks = Ok model
    /\ PlaylistBuilder.getBestSeeds np tracks model 5 = Ok seeds
    /\ (length seeds <= 5)%nat
    /\ Forall (fun s => s ∈ tracks) seeds
    /\ PlaylistBuilder.getModelRecommendations self model seeds limit = Ok recs
    /\ out `prefix_of` PlaylistBuilder.deduplicate recs tracks
    /\ out `sublist_of` recs.
Proof.
  unfold PlaylistBuilder.run. intros H.
  apply bind_Ok in H as (tracks & Htracks & H).
  apply bind_Ok in H as (model & Hmodel & H).
  apply bind_Ok in H as (seeds & Hseeds & H).
  apply bind_Ok in H as (recs & Hrecs & [= <-]).
  exists tracks, model, seeds, recs.
  assert (Hprefix : PlaylistBuilder.cap (PlaylistBuilder.deduplicate recs tracks) limit
                    `prefix_of` PlaylistBuilder.deduplicate recs tracks).
  { unfold PlaylistBuilder.cap. destruct (_ >? _); [|done].
    destruct (slice_to_prefix (PlaylistBuilder.deduplicate recs tracks) limit) as [n ->].
    apply prefix_take. }
  repeat split; try done.
  - intros ->. by rewrite getBestSeeds_nil in Hseeds.
  - unfold PlaylistBuilder.getBestSeeds in Hseeds.
    apply bind_Ok in Hseeds as (idx & Hidx & Hitems).
    rewrite (mapM_r_length _ _ _ Hitems).
    unfold PlaylistBuilder.seed_indices in Hidx.
    apply bind_Ok in Hidx as (rows & _ & Hidx).
    apply bind_Ok in Hidx as (diff & _ & [= <-]).
    unfold py.slice_to. simpl. rewrite length_take. lia.
  - unfold PlaylistBuilder.getBestSeeds in Hseeds.
    apply bind_Ok in Hseeds as (idx & _ & Hitems).
    by apply item_elem_of in Hitems.
  - destruct Hprefix as [k Hk]. unfold PlaylistBuilder.deduplicate in Hk.
    etrans; [|apply (sublist_filter
                       (fun tr => PlaylistBuilder.track_id tr
                                  ∉ PlaylistBuilder.track_id <$> tracks) recs)].
    rewrite Hk. by apply sublist_inserts_r.
Qed.

Lemma run_returns_recommendations_in_order_witness :
  exists (out tracks : list Track.t),
    PlaylistBuilder.run sorts.np_stable scenario.builder 5 = Ok out
    /\ PlaylistBuilder.enriched scenario.builder = Ok tracks
    /\ tracks <> [].
Proof.
  destruct (PlaylistBuilder.run sorts.np_stable scenario.builder 5) as [out|e] eqn:Hrun;
    [|vm_compute in Hrun; discriminate].
  destruct (run_returns_recommendations_in_order _ _ _ _ Hrun)
    as (tracks & model & seeds & recs & Htracks & Hne & _).
  exists out, tracks. split; [reflexivity|]. split; [exact Htracks | exact Hne].
Defined.

Lemma attach_vectors (h : list Track.t) (features : list AudioFeatures.kwargs) :
  (length h <= length features)%nat ->
  Forall (fun kw => spec.is_vector (AudioFeatures.model (AudioFeatures.init kw))) features ->
  Forall spec.has_vector (behaviour.attach h features).
Proof.
  revert features. induction h as [|tr h IH]; intros [|f features] Hlen Hall;
    simpl in *; try lia; [constructor | constructor|].
  apply Forall_cons in Hall as [Hf Hall].
  constructor; [|apply IH; [lia | done]].
  exists (AudioFeatures.init f). by split.
Qed.

Lemma attach_ids (h : list Track.t) (features : list AudioFeatures.kwargs) :
  Forall (fun tr => is_Some (PlaylistBuilder.track_id tr)) h ->
  Forall (fun tr => is_Some (PlaylistBuilder.track_id tr)) (behaviour.attach h features).
Proof.
  intros Hall. revert features.
  induction Hall as [|tr h Htr Hall IH]; intros [|f features]; simpl.
  - constructor.
  - constructor.
  - by constructor.
  - constructor; [exact Htr | apply IH].
Qed.

Lemma genAverageModel_vectors (tracks : list Track.t) :
  tracks <> [] ->
  Forall spec.has_vector tracks ->
  exists m, PlaylistBuilder.genAverageModel tracks = Ok m /\ spec.is_vector m.
Proof.
  intros Hne Hvec. unfold PlaylistBuilder.genAverageModel.
  rewrite (feature_rows_vectors _ Hvec). simpl.
  assert (Hmat : numpy.matrix (spec.row <$> tracks) = spec.row <$> tracks)
    by (destruct tracks; [done | reflexivity]).
  rewrite Hmat. unfold numpy.mean_axis0.
  assert (Hcols : numpy.ncols (spec.row <$> tracks) = 8%nat)
    by (destruct tracks; [done | reflexivity]).
  rewrite Hcols. cbn [seq mapM_r].
  rewrite (add_reduce_column 0 _ tracks eq_refl), (add_reduce_column 1 _ tracks eq_refl),
    (add_reduce_column 2 _ tracks eq_refl), (add_reduce_column 3 _ tracks eq_refl),
    (add_reduce_column 4 _ tracks eq_refl), (add_reduce_column 5 _ tracks eq_refl),
    (add_reduce_column 6 _ tracks eq_refl), (add_reduce_column 7 _ tracks eq_refl).
  simpl. eexists. split; [reflexivity|].
  unfold spec.is_vector, spec.dimensions. repeat constructor; by eexists.
Qed.

(** X18: [run] returns a playlist whenever at least one input track
    resolves, every resolved item and every recommended item names an
    artist, and the audio-features response has at least as many records
    as there are resolved tracks, each with all eight dimensions: under
    these conditions no step of the pipeline raises, for any limit. *)
Theorem run_returns (np : numpy.t) (self : PlaylistBuilder.t) (limit : Z) :
  numpy.contract np ->
  behaviour.resolved self <> [] ->
  Forall (fun o => api.track_artists o <> []) (behaviour.resolved self) ->
  (length (behaviour.resolved self) <= length (behaviour.resolved_features self))%nat ->
  Forall (fun kw => spec.is_vector (AudioFeatures.model (AudioFeatures.init kw)))
    (behaviour.resolved_features self) ->
  (forall ids m,
      Forall (fun o => api.track_artists o <> [])
        (api.recommendations (PlaylistBuilder.session self) ids limit m)) ->
  exists out, PlaylistBuilder.run np self limit = Ok out.
Proof.
  intros Hnp Hne Hartists Hlen Hfeatures Hrecs.
  destruct (enriched_resolved self Hartists) as (h & Hrel & Henriched).
  pose proof (Forall2_length _ _ _ Hrel) as Hlength.
  set (tracks := behaviour.attach h (behaviour.resolved_features self)) in *.
  assert (Hvec : Forall spec.has_vector tracks).
  { apply attach_vectors; [lia | done]. }
  assert (Hids : Forall (fun tr => is_Some (PlaylistBuilder.track_id tr)) tracks).
  { apply attach_ids. apply Forall_forall. intros tr Htr.
    apply list_elem_of_lookup_1 in Htr as [i Hi].
    destruct (Forall2_lookup_r _ _ _ _ _ Hrel Hi) as (o & _ & Ho).
    apply track_of_id in Ho as [-> _]. by eexists. }
  assert (Htracks : tracks <> []).
  { intros Hnil. apply (f_equal length) in Hnil.
    unfold tracks in Hnil. rewrite attach_length in Hnil. simpl in Hnil.
    destruct (behaviour.resolved self); [done | simpl in *; lia]. }
  destruct (genAverageModel_vectors tracks Htracks Hvec) as (model & Hmodel & Htarget).
  destruct (seeds_selected np tracks model 5 Hnp Htracks Hvec Htarget)
    as (n & seeds & _ & _ & Hseeds & Hall).
  assert (Hseed_ids : Forall is_Some (PlaylistBuilder.track_id <$> seeds)).
  { apply Forall_fmap, Forall_forall. intros s Hs. simpl.
    apply list_elem_of_lookup_1 in Hs as [i Hi].
    destruct (Forall2_lookup_r _ _ _ _ _ Hall Hi) as (a & _ & Ha).
    rewrite Forall_forall in Hids. apply Hids.
    by apply list_elem_of_lookup_2 with a. }
  destruct (join_ids_Some _ Hseed_ids) as [ids Hjoin].
  destruct (track_of_all _ (Hrecs ids model)) as [recs Hrecs'].
  apply mapM_r_Forall2 in Hrecs'.
  eexists. unfold PlaylistBuilder.run.
  rewrite Henriched. simpl. rewrite Hmodel. simpl. rewrite Hseeds. simpl.
  unfold PlaylistBuilder.getModelRecommendations. rewrite Hjoin. simpl.
  rewrite Hrecs'. reflexivity.
Qed.

Lemma run_returns_witness :
  exists out, PlaylistBuilder.run sorts.np_stable scenario.builder 5 = Ok out.
Proof.
  apply (run_returns sorts.np_stable scenario.builder 5 np_stable_contract).
  - intros H. vm_compute in H. discriminate.
  - repeat constructor; discriminate.
  - vm_compute. lia.
  - repeat constructor;
      unfold spec.is_vector, spec.dimensions; repeat constructor; by eexists.
  - intros ids m. repeat constructor; discriminate.
Defined.

(** X19: when no input track resolves (every search response is empty,
    or there is no input at all) [run] does not return an empty playlist:
    with a well-formed answer to the audio-features request the average
    of no tracks is the all-[None] model, and the distance computation of
    [getBestSeeds] raises ValueError. *)
Theorem run_nothing_resolved (np : numpy.t) (self : PlaylistBuilder.t) (limit : Z) :
  behaviour.resolved self = [] ->
  PlaylistBuilder.enriched self = Ok []
  /\ PlaylistBuilder.run np self limit = Raise ValueError.
Proof.
  intros Hnone.
  destruct (enriched_resolved self) as (h & Hrel & Henriched);
    [rewrite Hnone; constructor|].
  rewrite Hnone in Hrel. inversion Hrel; subst. simpl in Henriched.
  split; [exact Henriched|].
  unfold PlaylistBuilder.run. rewrite Henriched. reflexivity.
Qed.

Lemma run_nothing_resolved_witness :
  PlaylistBuilder.run sorts.np_stable
    (PlaylistBuilder.mk [scenario.input "nobody"] scenario.catalog) 5
  = Raise ValueError.
Proof.
  apply (run_nothing_resolved sorts.np_stable
           (PlaylistBuilder.mk [scenario.input "nobody"] scenario.catalog) 5).
  reflexivity.
Defined.

Lemma str_take_length (n : nat) (s : string) :
  (String.length (py.str_take n s) <= n)%nat.
Proof.
  revert s. induction n as [|n IH]; intros [|c s]; simpl; try lia.
  specialize (IH s). lia.
Qed.

Lemma track_of_fields (o : api.track_object) (tr : Track.t) :
  PlaylistBuilder.track_of o = Ok tr ->
  Track.audio_features tr = None
  /\ exists n a al y i h,
       Track.track_info tr
       = TrackInfo.mk (Some n) (Some a) (Some al) (Some (py.Str y)) (Some i) (Some h)
       /\ (String.length y <= 4)%nat.
Proof.
  unfold PlaylistBuilder.track_of.
  destruct (api.track_artists o) as [|a others]; [discriminate|].
  intros [= <-]. split; [reflexivity|].
  exists (api.track_name o), (api.artist_name a),
    (api.album_name (api.track_album o)),
    (py.str_take 4 (api.release_date (api.track_album o))),
    (api.track_id o), (api.track_href o).
  split; [reflexivity|]. apply str_take_length.
Qed.

(** X20: every track [run] returns is a bare identity built from a
    recommended catalog item: it has no audio features, its name, artist,
    album, id and href are all set, and its year is a string of at most
    four characters. *)
Theorem run_returns_full_identities (np : numpy.t) (self : PlaylistBuilder.t)
    (limit : Z) (out : list Track.t) :
  PlaylistBuilder.run np self limit = Ok out ->
  Forall (fun tr =>
            Track.audio_features tr = None
            /\ exists n a al y i h,
                 Track.track_info tr
                 = TrackInfo.mk (Some n) (Some a) (Some al) (Some (py.Str y))
                     (Some i) (Some h)
                 /\ (String.length y <= 4)%nat)
    out.
Proof.
  unfold PlaylistBuilder.run. intros H.
  apply bind_Ok in H as (tracks & _ & H).
  apply bind_Ok in H as (model & _ & H).
  apply bind_Ok in H as (seeds & _ & H).
  apply bind_Ok in H as (recs & Hrecs & [= <-]).
  unfold PlaylistBuilder.getModelRecommendations in Hrecs.
  apply bind_Ok in Hrecs as (ids & _ & Hrecs).
  apply mapM_r_Forall2 in Hrecs.
  apply Forall_forall. intros tr Htr.
  apply elem_of_cap in Htr. unfold PlaylistBuilder.deduplicate in Htr.
  apply list_elem_of_filter in Htr as [_ Htr].
  apply list_elem_of_lookup_1 in Htr as [i Hi].
  destruct (Forall2_lookup_r _ _ _ _ _ Hrecs Hi) as (o & _ & Ho).
  by apply track_of_fields in Ho.
Qed.

Lemma run_returns_full_identities_witness :
  exists out,
    PlaylistBuilder.run sorts.np_stable scenario.builder 5 = Ok out
    /\ Forall (fun tr => Track.audio_features tr = None) out.
Proof.
  destruct (PlaylistBuilder.run sorts.np_stable scenario.builder 5) as [out|e] eqn:Hrun;
    [|vm_compute in Hrun; discriminate].
  exists out. split; [reflexivity|].
  eapply Forall_impl; [exact (run_returns_full_identities _ _ _ _ Hrun)|].
  by intros tr [Hnone _].
Defined.

(** X21: the length of the capped list for every integer limit: with a
    limit that is not negative it is the smaller of the limit and the
    number of deduplicated tracks; with a negative limit [-k] it is that
    number less [k], or 0. *)
Theorem cap_length (recs : list Track.t) (limit : Z) :
  Z.of_nat (length (PlaylistBuilder.cap recs limit))
  = if limit <? 0
    then Z.max 0 (Z.of_nat (length recs) + limit)
    else Z.min limit (Z.of_nat (length recs)).
Proof.
  unfold PlaylistBuilder.cap, py.slice_to.
  destruct (Z.gtb_spec (Z.of_nat (length recs)) limit), (Z.ltb_spec limit 0);
    rewrite ?length_take; lia.
Qed.
